(** * Spreadsheet selection module of Tabulator: model and verification

    Shallow embedding of [src/js/modules/Spreadsheet/Spreadsheet.js]:
    the [Range] class, the selection state of the [Spreadsheet] module
    ([ranges], [selecting]) and the handlers that mutate it.

    JavaScript integers are modelled as [Z]; [Math.min]/[Math.max] are
    [Z.min]/[Z.max].  A thrown [TypeError] is the [None] outcome of the
    handler monad below; the state reached before the throw is kept. *)

From Stdlib Require Import ZArith Lia Bool.
From stdpp Require Import base option list gmap strings.

Local Open Scope Z_scope.

(** ** class Range *)

(** The object literals [{ row, col }] held in [start] and [end]. *)
Record Anchor := { row : Z; col : Z }.

(** A [Range] object: the two anchors and the four cached bounds, which
    the source stores as fields and recomputes in [_updateMinMax]. *)
Record Range := {
  start : Anchor;
  end_ : Anchor;
  minRow : Z;
  maxRow : Z;
  minCol : Z;
  maxCol : Z
}.

(** [_updateMinMax()] *)
Definition _updateMinMax (this : Range) : Range :=
  {| start := start this;
     end_ := end_ this;
     minRow := Z.min (row (start this)) (row (end_ this));
     maxRow := Z.max (row (start this)) (row (end_ this));
     minCol := Z.min (col (start this)) (col (end_ this));
     maxCol := Z.max (col (start this)) (col (end_ this)) |}.

(** [constructor(row, col)]: the bound fields do not exist before the
    first [_updateMinMax]; they are written as 0 and overwritten at once. *)
Definition new_Range (r c : Z) : Range :=
  _updateMinMax
    {| start := {| row := r; col := c |};
       end_ := {| row := r; col := c |};
       minRow := 0; maxRow := 0; minCol := 0; maxCol := 0 |}.

(** [setStart(row, col)] *)
Definition setStart (r c : Z) (this : Range) : Range :=
  _updateMinMax
    {| start := {| row := r; col := c |};
       end_ := end_ this;
       minRow := minRow this; maxRow := maxRow this;
       minCol := minCol this; maxCol := maxCol this |}.

(** [setEnd(row, col)] *)
Definition setEnd (r c : Z) (this : Range) : Range :=
  _updateMinMax
    {| start := start this;
       end_ := {| row := r; col := c |};
       minRow := minRow this; maxRow := maxRow this;
       minCol := minCol this; maxCol := maxCol this |}.

(** [atTopLeft(row, col)] *)
Definition atTopLeft (this : Range) (r c : Z) : bool :=
  (r =? minRow this) && (c =? minCol this).

(** [atBottomRight(row, col)] *)
Definition atBottomRight (this : Range) (r c : Z) : bool :=
  (r =? maxRow this) && (c =? maxCol this).

(** [isInside(row, col)] *)
Definition isInside (this : Range) (r c : Z) : bool :=
  (minRow this <=? r) && (r <=? maxRow this) &&
  (minCol this <=? c) && (c <=? maxCol this).

(** [isStartingAt(row, col)] *)
Definition isStartingAt (this : Range) (r c : Z) : bool :=
  (row (start this) =? r) && (col (start this) =? c).

(** [withinRow(row)] *)
Definition withinRow (this : Range) (r : Z) : bool :=
  (r >=? minRow this) && (r <=? maxRow this).

(** [withinColumn(col)] *)
Definition withinColumn (this : Range) (c : Z) : bool :=
  (c >=? minCol this) && (c <=? maxCol this).

(** The mutating calls a client can make on a [Range]. *)
Inductive RangeCall :=
| CallSetStart (r c : Z)
| CallSetEnd (r c : Z).

Definition runCall (this : Range) (k : RangeCall) : Range :=
  match k with
  | CallSetStart r c => setStart r c this
  | CallSetEnd r c => setEnd r c this
  end.

Definition runCalls (this : Range) (ks : list RangeCall) : Range :=
  foldl runCall this ks.

(** The cached bounds agree with the anchors. *)
Definition bounds_consistent (g : Range) : Prop :=
  minRow g = Z.min (row (start g)) (row (end_ g)) /\
  maxRow g = Z.max (row (start g)) (row (end_ g)) /\
  minCol g = Z.min (col (start g)) (col (end_ g)) /\
  maxCol g = Z.max (col (start g)) (col (end_ g)).

(** ** The grid collaborator

    [Module.js], the column manager and the row manager are not part of
    the module under study; the queries the module makes are modelled
    here for a table without column groups, where
    [columnManager.columns], [columnManager.columnsByIndex] and
    [columnManager.getColumns()] are the same flat list. *)

(** JavaScript values stored in row data. *)
Inductive Value :=
| VUndefined
| VNumber (z : Z)
| VString (s : string).

(** A column object; [cid] stands for its object identity. *)
Record Column := { cid : nat; field : string }.

(** A cell component: [cell.row.position] and [cell.column]. *)
Record Cell := { position : Z; column : Column }.

(** What the pointer events deliver: [element.type === "column"] or a
    cell. *)
Inductive Component :=
| ColumnComponent (c : Column)
| CellComponent (c : Cell).

(** The modifier keys read from the DOM event. *)
Record MouseEvent := { shiftKey : bool; ctrlKey : bool }.

Record Table := {
  (** [columnManager.columns], row header first once initialised *)
  columns : list Column;
  (** [table.getRows()] / [rowManager.getRows()], each with its [getData()] *)
  rows : list (gmap string Value);
  (** number of rows shown on the current page, at positions 1..n *)
  displayedRows : nat;
  (** [table.getPageSize()], present only with the pagination module *)
  getPageSize : option Z;
  (** [this.options("rowHeaderField")] *)
  rowHeaderField : string;
  (** the array behind [column.getCells()], given by the current position
      of each cell's row, in the array's own order: the order in which
      the rows created their cells, which a sort or a filter does not
      change.  A row creates its cells for all columns at once, so the
      columns list the same rows. *)
  cellRows : list Z
}.

(** [Array.prototype.findIndex] *)
Fixpoint findIndex {A} (p : A -> bool) (l : list A) : Z :=
  match l with
  | [] => -1
  | x :: l' =>
      if p x then 0
      else let i := findIndex p l' in if i <? 0 then -1 else i + 1
  end.

(** Modelled from the spec: [columnManager.findColumnIndex(column)], the
    grid collaborator's column index lookup for a column handle; the
    position of that very object in [columnsByIndex], or -1. *)
Definition findColumnIndex (t : Table) (c : Column) : Z :=
  findIndex (fun c' => Nat.eqb (cid c') (cid c)) (columns t).

(** Modelled from the spec: [rowManager.getRowFromPosition(p).getCells()],
    which lives in the grid collaborator; the row displayed at position
    [p] of the current page holds one cell per column, in column order.
    [None] is the [false] the lookup returns for a position that is not
    displayed. *)
Definition getRowFromPosition_getCells (t : Table) (p : Z) : option (list Cell) :=
  if (1 <=? p) && (p <=? Z.of_nat (displayedRows t))
  then Some (map (fun c => {| position := p; column := c |}) (columns t))
  else None.

(** Modelled from the spec: [column.getCells()], which lives in the grid
    collaborator and is asked for by [handleColumnMouseDown] alone.  The
    spec gives the array no order, so none is assumed: its rows are the
    table's [cellRows].  [handleColumnMouseDown] has called
    [getRowFromPosition(1).getCells()] before, which makes the row at
    position 1 create its cells if it has none; with a row displayed
    that row's cell is therefore in the array, last if it was missing. *)
Definition Column_getCells (t : Table) (c : Column) : list Cell :=
  map (fun p => {| position := p; column := c |})
      (if Nat.eqb (displayedRows t) 0 || existsb (Z.eqb 1) (cellRows t)
       then cellRows t
       else cellRows t ++ [1]).

(** [Array.prototype.slice(begin, end)], negative indices counted from
    the end of the array; [None] is an omitted [end]. *)
Definition slice {A} (l : list A) (b : Z) (e : option Z) : list A :=
  let len := Z.of_nat (length l) in
  let k := if b <? 0 then Z.max (len + b) 0 else Z.min b len in
  let final :=
    match e with
    | None => len
    | Some e => if e <? 0 then Z.max (len + e) 0 else Z.min e len
    end in
  take (Z.to_nat (final - k)) (drop (Z.to_nat k) l).

(** [array[i]] for an integer [i]: [undefined] ([None]) out of range. *)
Definition at_index {A} (l : list A) (i : Z) : option A :=
  if i <? 0 then None else l !! Z.to_nat i.

(** [get rowsPerPage()] *)
Definition rowsPerPage (t : Table) : Z :=
  match getPageSize t with
  | Some n => n
  | None => Z.of_nat (length (rows t))
  end.

(** ** class Spreadsheet: the selection state *)

(** The values held by [this.selecting]. *)
Inductive Selecting :=
| Sfalse
| Scell
| Srow
| Scolumn
| Sall.

Global Instance Selecting_eq_dec : EqDecision Selecting.
Proof. solve_decision. Defined.

(** The fields of the module that the handlers mutate.  Every element of
    [ranges] is created by its own [new Range], so no Range object sits
    at two indices and a list of values loses nothing. *)
Record Spreadsheet := {
  ranges : list Range;
  selecting : Selecting
}.

(** [constructor(table)] *)
Definition new_Spreadsheet : Spreadsheet :=
  {| ranges := [new_Range 0 0]; selecting := Sfalse |}.

(** *** Handler monad: state with exceptions

    A handler runs on the current state and either completes ([Some]) or
    throws a [TypeError] ([None]); in both cases the assignments made so
    far stay. *)
Definition Handler (A : Type) : Type := Spreadsheet -> option A * Spreadsheet.

Definition hret {A} (a : A) : Handler A := fun s => (Some a, s).

Definition hbind {A B} (m : Handler A) (k : A -> Handler B) : Handler B :=
  fun s =>
    match m s with
    | (Some a, s') => k a s'
    | (None, s') => (None, s')
    end.

Definition throw {A} : Handler A := fun s => (None, s).

Definition set_ranges (l : list Range) : Handler unit :=
  fun s => (Some tt, {| ranges := l; selecting := selecting s |}).

Definition set_selecting (m : Selecting) : Handler unit :=
  fun s => (Some tt, {| ranges := ranges s; selecting := m |}).

Definition read {A} (f : Spreadsheet -> A) : Handler A :=
  fun s => (Some (f s), s).

Global Instance Handler_ret : MRet Handler := @hret.
Global Instance Handler_bind : MBind Handler := fun A B k m => hbind m k.

(** The state a handler leaves behind, thrown or not. *)
Definition exec {A} (m : Handler A) (s : Spreadsheet) : Spreadsheet := snd (m s).

(** [getActiveRange()]: [this.ranges[this.ranges.length - 1]], which is
    [undefined] ([None]) on an empty array. *)
Definition getActiveRange (s : Spreadsheet) : option Range :=
  ranges s !! (length (ranges s) - 1)%nat.

(** A method call on the object [getActiveRange()] returned: it mutates
    the last element of [ranges] in place, and throws on [undefined]. *)
Definition onActiveRange (f : Range -> Range) : Handler unit :=
  fun s =>
    match getActiveRange s with
    | Some _ =>
        (Some tt,
         {| ranges := alter f (length (ranges s) - 1)%nat (ranges s);
            selecting := selecting s |})
    | None => (None, s)
    end.

(** [element.column.field === this.options("rowHeaderField")] *)
Definition isRowHeaderField (t : Table) (c : Column) : bool :=
  String.eqb (field c) (rowHeaderField t).

(** [beginSelection(element)] *)
Definition beginSelection (t : Table) (element : Component) : Handler unit :=
  match element with
  | ColumnComponent c =>
      onActiveRange (setStart 0 (findColumnIndex t c - 1))
  | CellComponent cell =>
      let row := position cell - 1 in
      let col := findColumnIndex t (column cell) - 1 in
      if isRowHeaderField t (column cell)
      then onActiveRange (setStart row 0)
      else onActiveRange (setStart row col)
  end.

(** [endSelection(element)] *)
Definition endSelection (t : Table) (element : Component) : Handler unit :=
  match element with
  | ColumnComponent c =>
      sel ← read selecting;
      if decide (sel = Scolumn) then
        onActiveRange (setEnd (rowsPerPage t - 1) (findColumnIndex t c - 1))
      else if decide (sel = Scell) then
        onActiveRange (setEnd 0 (findColumnIndex t c - 1))
      else hret tt
  | CellComponent cell =>
      let row := position cell - 1 in
      let col := findColumnIndex t (column cell) - 1 in
      let isRowHeader := isRowHeaderField t (column cell) in
      sel ← read selecting;
      if decide (sel = Srow) then
        onActiveRange (setEnd row (Z.of_nat (length (columns t)) - 2))
      else if negb (bool_decide (sel = Srow)) && isRowHeader then
        onActiveRange (setEnd row 0)
      else if decide (sel = Scolumn) then
        onActiveRange (setEnd (rowsPerPage t - 1) col)
      else
        onActiveRange (setEnd row col)
  end.

(** A call on a value that may be [undefined]: reading a property of
    [undefined] throws. *)
Definition defined {A} (o : option A) : Handler A :=
  match o with
  | Some a => hret a
  | None => throw
  end.

(** In the handlers below the closing [this.layoutElement()] is left out:
    it reads the selection state and writes classes and overlay boxes to
    the DOM, and it is the last statement of the handler.  A handler
    that completes here ([Some]) has reached that call with the state
    given; whether the call itself throws is what [layoutSelection]
    below says, and it does throw when a range corner or the active
    start is not a displayed cell. *)

(** [_select(event, element)] *)
Definition _select (t : Table) (event : MouseEvent) (element : Component)
  : Handler unit :=
  match element with
  | ColumnComponent _ => set_selecting Scolumn
  | CellComponent cell =>
      if isRowHeaderField t (column cell)
      then set_selecting Srow
      else set_selecting Scell
  end ;;
  if shiftKey event then
    rs ← read ranges;
    (if (1 <? Z.of_nat (length rs))
     then set_ranges (slice rs (-1) None)
     else hret tt) ;;
    endSelection t element
  else if ctrlKey event then
    rs ← read ranges;
    set_ranges (rs ++ [new_Range 0 0]) ;;
    beginSelection t element ;;
    endSelection t element
  else
    set_ranges [new_Range 0 0] ;;
    beginSelection t element ;;
    endSelection t element.

(** [handleColumnMouseDown(event, column)] *)
Definition handleColumnMouseDown (t : Table) (event : MouseEvent) (column : Column)
  : Handler unit :=
  if isRowHeaderField t column then
    set_ranges [new_Range 0 0] ;;
    set_selecting Sall ;;
    cells ← defined (getRowFromPosition_getCells t 1);
    let topLeftCell := at_index cells 1 in
    lastColumn ← defined (at_index (slice (columns t) (-1) None) 0);
    let bottomRightCell :=
      at_index (slice (Column_getCells t lastColumn) (-1) None) 0 in
    c1 ← defined topLeftCell;
    beginSelection t (CellComponent c1) ;;
    c2 ← defined bottomRightCell;
    endSelection t (CellComponent c2)
  else
    _select t event (ColumnComponent column).

(** [handleColumnMouseMove(_, column)] *)
Definition handleColumnMouseMove (t : Table) (column : Column) : Handler unit :=
  if isRowHeaderField t column then hret tt
  else
    sel ← read selecting;
    if decide (sel = Sfalse) then hret tt
    else endSelection t (ColumnComponent column).

(** [handleCellMouseDown(event, cell)] *)
Definition handleCellMouseDown (t : Table) (event : MouseEvent) (cell : Cell)
  : Handler unit :=
  _select t event (CellComponent cell).

(** [handleCellMouseMove(_, cell)] *)
Definition handleCellMouseMove (t : Table) (cell : Cell) : Handler unit :=
  sel ← read selecting;
  if decide (sel = Sfalse) then hret tt
  else endSelection t (CellComponent cell).

(** [handleMouseUp()] *)
Definition handleMouseUp : Handler unit := set_selecting Sfalse.

(** [handlePageChanged()] *)
Definition handlePageChanged : Handler unit := set_ranges [new_Range 0 0].

(** [selectingAllColumnsOfRow(row)] *)
Definition selectingAllColumnsOfRow (t : Table) (s : Spreadsheet) (r : Z) : bool :=
  if decide (selecting s = Sall) then true
  else
    existsb
      (fun range =>
         bool_decide (selecting s = Srow) &&
         (col (start range) =? 0) &&
         (col (end_ range) =? Z.of_nat (length (columns t)) - 2) &&
         withinRow range r)
      (ranges s).

(** [selectingAllRowsOfColumn(col)] *)
Definition selectingAllRowsOfColumn (t : Table) (s : Spreadsheet) (c : Z) : bool :=
  if decide (selecting s = Sall) then true
  else
    existsb
      (fun range =>
         bool_decide (selecting s = Scolumn) &&
         (row (start range) =? 0) &&
         (row (end_ range) =? rowsPerPage t - 1) &&
         withinColumn range c)
      (ranges s).

(** The events the module subscribes to in [initialize] that reach the
    selection state. *)
Inductive Event :=
| ColumnMouseDown (event : MouseEvent) (column : Column)
| ColumnMouseMove (column : Column)
| CellMouseDown (event : MouseEvent) (cell : Cell)
| CellMouseMove (cell : Cell)
| MouseUp
| PageChanged.

Definition dispatch (t : Table) (e : Event) : Handler unit :=
  match e with
  | ColumnMouseDown event column => handleColumnMouseDown t event column
  | ColumnMouseMove column => handleColumnMouseMove t column
  | CellMouseDown event cell => handleCellMouseDown t event cell
  | CellMouseMove cell => handleCellMouseMove t cell
  | MouseUp => handleMouseUp
  | PageChanged => handlePageChanged
  end.

(** One event delivered to the module; a throw ends the handler and the
    state written so far stays. *)
Definition step (t : Table) (s : Spreadsheet) (e : Event) : Spreadsheet :=
  exec (dispatch t e) s.

Definition run (t : Table) (s : Spreadsheet) (es : list Event) : Spreadsheet :=
  foldl (step t) s es.

(** ** getSelectedData *)

(** [row[column.field]]: a missing key reads as [undefined]. *)
Definition property (o : gmap string Value) (k : string) : Value :=
  default VUndefined (o !! k).

(** The object literal returned by [getSelectedData]. *)
Record SelectedData := {
  data : list (gmap string Value);
  rowCount : Z;
  columnCount : Z
}.

(** The body of the row loop: [result = {}] filled by
    [columns.forEach(column => result[column.field] = row[column.field])].
    An own property assigned [undefined] is still a key of the record. *)
Definition pickFields (columns : list Column) (row : gmap string Value)
  : gmap string Value :=
  foldl (fun result column => <[field column := property row (field column)]> result)
        ∅ columns.

(** [getSelectedData(range)]; [None] when it throws, which [rows[r]]
    does on an index outside [table.getRows()]. *)
Definition getSelectedData (t : Table) (s : Spreadsheet) (range : option Range)
  : option SelectedData :=
  range ← (match range with
           | Some r => Some r
           | None => getActiveRange s
           end);
  let rows := rows t in
  let columns := slice (columns t) (minCol range + 1) (Some (maxCol range + 2)) in
  data ← mapM (fun r => row ← at_index rows r; Some (pickFields columns row))
              (seqZ (minRow range) (maxRow range - minRow range + 1));
  Some {| data := data;
          rowCount := Z.of_nat (length data);
          columnCount := Z.of_nat (length columns) |}.

(** ** initialize *)

(** A column definition of [table.options.columns], with the properties
    the module writes. *)
Record ColumnDefinition := {
  def_title : string;
  def_field : string;
  def_headerSort : bool;
  def_resizable : bool;
  def_frozen : bool;
  def_editable : bool;
  def_cssClass : string
}.

(** The parts of the host that [initialize] reads and writes. *)
Record Host := {
  (** [table.modules.selectRow] is truthy *)
  modules_selectRow : bool;
  (** events passed to [this.subscribe], oldest first *)
  subscriptions : list string;
  (** events passed to [document.addEventListener] *)
  documentListeners : list string;
  (** messages passed to [console.error] *)
  console_error : list string;
  (** [table.options.columns] *)
  options_columns : list ColumnDefinition;
  (** [table.element.classList] *)
  element_classList : list string;
  (** overlay elements appended to [rowManager.element] *)
  overlays : nat
}.

Definition subscribe (key : string) (h : Host) : Host :=
  {| modules_selectRow := modules_selectRow h;
     subscriptions := subscriptions h ++ [key];
     documentListeners := documentListeners h;
     console_error := console_error h;
     options_columns := options_columns h;
     element_classList := element_classList h;
     overlays := overlays h |}.

Definition rowHeaderDefinition (rowHeaderField : string) : ColumnDefinition :=
  {| def_title := EmptyString;
     def_field := rowHeaderField;
     def_headerSort := false;
     def_resizable := true;
     def_frozen := true;
     def_editable := false;
     def_cssClass := "tabulator-row-header" |}.

Definition disableHeaderSort (c : ColumnDefinition) : ColumnDefinition :=
  {| def_title := def_title c;
     def_field := def_field c;
     def_headerSort := false;
     def_resizable := def_resizable c;
     def_frozen := def_frozen c;
     def_editable := def_editable c;
     def_cssClass := def_cssClass c |}.

(** [initializeTable()] *)
Definition initializeTable (rowHeaderField : string) (h : Host) : Host :=
  {| modules_selectRow := modules_selectRow h;
     subscriptions := subscriptions h;
     documentListeners := documentListeners h;
     console_error := console_error h;
     options_columns :=
       rowHeaderDefinition rowHeaderField
         :: map disableHeaderSort (options_columns h);
     element_classList := element_classList h ++ ["tabulator-spreadsheet"];
     overlays := S (overlays h) |}.

Definition clashMessage : string :=
  "Spreadsheet Error - Cannot use both SelectRow and Spreadsheet modules at the same time.".

(** [initialize()] *)
Definition initialize (rowHeaderField : string) (h : Host) : Host :=
  if modules_selectRow h then
    {| modules_selectRow := modules_selectRow h;
       subscriptions := subscriptions h;
       documentListeners := documentListeners h;
       console_error := console_error h ++ [clashMessage];
       options_columns := options_columns h;
       element_classList := element_classList h;
       overlays := overlays h |}
  else
    let h := subscribe "column-mousedown" h in
    let h := subscribe "column-mousemove" h in
    let h := subscribe "cell-mousedown" h in
    let h := subscribe "cell-mousemove" h in
    let h := subscribe "cell-rendered" h in
    let h := subscribe "page-changed" h in
    let h := subscribe "table-layout" h in
    let h :=
      {| modules_selectRow := modules_selectRow h;
         subscriptions := subscriptions h;
         documentListeners := documentListeners h ++ ["mouseup"];
         console_error := console_error h;
         options_columns := options_columns h;
         element_classList := element_classList h;
         overlays := overlays h |} in
    let h := subscribe "table-destroy" h in
    initializeTable rowHeaderField h.

(** ** Sample grids used by the examples *)

Definition rowHeader : Column := {| cid := 0; field := "--row-position" |}.
Definition colA : Column := {| cid := 1; field := "a" |}.
Definition colB : Column := {| cid := 2; field := "b" |}.
Definition colC : Column := {| cid := 3; field := "c" |}.

Definition sampleRow (n : Z) : gmap string Value :=
  <["a" := VNumber n]> (<["b" := VNumber (n + 10)]> (<["c" := VNumber (n + 20)]> ∅)).

(** Row header and three data columns, six rows, no pagination. *)
Definition sampleTable : Table :=
  {| columns := [rowHeader; colA; colB; colC];
     rows := map sampleRow [0; 1; 2; 3; 4; 5];
     displayedRows := 6;
     getPageSize := None;
     rowHeaderField := "--row-position";
     cellRows := [1; 2; 3; 4; 5; 6] |}.

(** [sampleTable] after a descending sort: the rows were created in data
    order, the first-created row is now at position 6 and the
    last-created at position 1. *)
Definition sortedTable : Table :=
  {| columns := [rowHeader; colA; colB; colC];
     rows := map sampleRow [0; 1; 2; 3; 4; 5];
     displayedRows := 6;
     getPageSize := None;
     rowHeaderField := "--row-position";
     cellRows := [6; 5; 4; 3; 2; 1] |}.

Definition plain : MouseEvent := {| shiftKey := false; ctrlKey := false |}.
Definition shift : MouseEvent := {| shiftKey := true; ctrlKey := false |}.
Definition ctrl : MouseEvent := {| shiftKey := false; ctrlKey := true |}.

Definition cellAt (r : Z) (c : Column) : Cell :=
  {| position := r + 1; column := c |}.

(** The column index the module computes for an extension target. *)
Definition targetColumn (t : Table) (element : Component) : Z :=
  match element with
  | ColumnComponent c => findColumnIndex t c - 1
  | CellComponent cell => findColumnIndex t (column cell) - 1
  end.

(** Ordinary cells and column headers, as opposed to row-header cells. *)
Definition notRowHeaderCell (t : Table) (element : Component) : Prop :=
  match element with
  | ColumnComponent _ => True
  | CellComponent cell => isRowHeaderField t (column cell) = false
  end.


(** Pointer moves, the events of a drag between pointer-down and
    pointer-up. *)
Definition isPointerMove (e : Event) : bool :=
  match e with
  | ColumnMouseMove _ | CellMouseMove _ => true
  | _ => false
  end.

(** The last cell of every column's cell array belongs to the last
    displayed row, as it does while the rows are displayed in the order
    in which they created their cells. *)
Definition lastCellAtBottom (t : Table) : Prop :=
  forall c, last (Column_getCells t c)
            = Some {| position := Z.of_nat (displayedRows t); column := c |}.

(** A table as [initializeTable] and the grid leave it for the corner
    header: distinct column objects, at least one data column, the last
    column not keyed by the row-header field, at least one row shown. *)
Definition gridReady (t : Table) : Prop :=
  NoDup (cid <$> columns t) /\
  (2 <= length (columns t))%nat /\
  (forall c, last (columns t) = Some c -> isRowHeaderField t c = false) /\
  (1 <= displayedRows t)%nat.

Definition sampleDefinition (f : string) : ColumnDefinition :=
  {| def_title := f; def_field := f; def_headerSort := true;
     def_resizable := true; def_frozen := false; def_editable := true;
     def_cssClass := EmptyString |}.

Definition sampleHost (selectRow : bool) : Host :=
  {| modules_selectRow := selectRow;
     subscriptions := [];
     documentListeners := [];
     console_error := [];
     options_columns := [sampleDefinition "a"; sampleDefinition "b"];
     element_classList := ["tabulator"];
     overlays := 0 |}.

(** A handler keeps [ranges] non-empty, whether it completes or throws. *)
Definition keeps {A} (m : Handler A) : Prop :=
  forall s, ranges s <> [] -> ranges (exec m s) <> [].

(** The bounds of a range lie within the grid: its rows among
    [table.getRows()], its columns among the data columns. *)
Definition insideGrid (t : Table) (g : Range) : Prop :=
  0 <= minRow g <= maxRow g /\ maxRow g < Z.of_nat (length (rows t)) /\
  0 <= minCol g <= maxCol g /\ maxCol g <= Z.of_nat (length (columns t)) - 2.

(** ** layoutCell *)

(** First toggle of [layoutCell]:
    [this.ranges.some((range) => range.isInside(row, col))]. *)
Definition cellSelected (s : Spreadsheet) (r c : Z) : bool :=
  existsb (fun range => isInside range r c) (ranges s).

(** Second toggle of [layoutCell]: [this.ranges.length === 1 &&
    this.ranges[0].atTopLeft(row, col) &&
    this.ranges[0].atBottomRight(row, col)]; the length test
    short-circuits before [ranges[0]] could be [undefined]. *)
Definition onlyCellSelected (s : Spreadsheet) (r c : Z) : bool :=
  (Z.of_nat (length (ranges s)) =? 1) &&
  match ranges s !! 0%nat with
  | Some g => atTopLeft g r c && atBottomRight g r c
  | None => false
  end.

(** What [layoutCell] writes to the cell element: the two classes it
    toggles and, for a row-header cell, the number put in [innerHTML]. *)
Record CellLayout := {
  tabulator_cell_selected : bool;
  tabulator_only_cell_selected : bool;
  innerHTML : option Z
}.

(** [layoutCell(cell)]; [getPage] is [table.getPage()], present only with
    the pagination module.  [None] is the throw of calling a missing
    [getPageSize]. *)
Definition layoutCell (t : Table) (getPage : option Z) (s : Spreadsheet)
  (cell : Cell) : option CellLayout :=
  let row := position cell - 1 in
  let col := findColumnIndex t (column cell) - 1 in
  let selected := cellSelected s row col in
  let only := onlyCellSelected s row col in
  if isRowHeaderField t (column cell) then
    let n := position cell in
    match getPage with
    | Some page =>
        size ← getPageSize t;
        Some {| tabulator_cell_selected := selected;
                tabulator_only_cell_selected := only;
                innerHTML := Some (n + (page - 1) * size) |}
    | None =>
        Some {| tabulator_cell_selected := selected;
                tabulator_only_cell_selected := only;
                innerHTML := Some n |}
    end
  else
    Some {| tabulator_cell_selected := selected;
            tabulator_only_cell_selected := only;
            innerHTML := None |}.

(** ** getCell, getActiveCell, layoutSelection *)

(** [getCell(row, col)]: the outer [None] is the throw on a row position
    that is not displayed, the inner [None] the [undefined] of a column
    index outside the row's cells. *)
Definition getCell (t : Table) (r c : Z) : option (option Cell) :=
  cells ← getRowFromPosition_getCells t (r + 1);
  Some (at_index cells (c + 1)).

(** [getActiveCell()] *)
Definition getActiveCell (t : Table) (s : Spreadsheet) : option (option Cell) :=
  activeRange ← getActiveRange s;
  getCell t (row (start activeRange)) (col (start activeRange)).

(** Pixel geometry the DOM reports: [cell.getElement().offsetLeft] and
    [offsetWidth], [cell.row.getElement().offsetTop] and [offsetHeight]
    (by row position), and the scroll box of [rowManager.tableElement]. *)
Record Geometry := {
  offsetLeft : Cell -> Z;
  offsetWidth : Cell -> Z;
  offsetTop : Z -> Z;
  offsetHeight : Z -> Z;
  scrollLeft : Z;
  scrollTop : Z;
  clientWidth : Z;
  clientHeight : Z
}.

(** A [div] appended to the overlay; the style lengths are the numbers
    placed before ["px"]. *)
Record Box := {
  box_active_cell : bool;   (** class tabulator-selection-active-cell *)
  box_range : bool;         (** class tabulator-selection-range *)
  box_range_active : bool;  (** class tabulator-selection-range-active *)
  box_left : Z;
  box_top : Z;
  box_width : Z;
  box_height : Z
}.

(** The overlay element after [layoutSelection]. *)
Record Overlay := {
  overlay_left : Z;
  overlay_top : Z;
  overlay_width : Z;
  overlay_height : Z;
  overlay_children : list Box
}.

(** The box built for one range inside [this.ranges.forEach]; [active]
    is [range === activeRange]. *)
Definition rangeBox (t : Table) (geo : Geometry) (active : bool) (range : Range)
  : option Box :=
  topLeft ← getCell t (minRow range) (minCol range);
  bottomRight ← getCell t (maxRow range) (maxCol range);
  topLeftCell ← topLeft;
  bottomRightCell ← bottomRight;
  Some {| box_active_cell := false;
          box_range := true;
          box_range_active := active;
          box_left := offsetLeft geo topLeftCell;
          box_top := offsetTop geo (position topLeftCell);
          box_width :=
            offsetLeft geo bottomRightCell + offsetWidth geo bottomRightCell
            - offsetLeft geo topLeftCell;
          box_height :=
            offsetTop geo (position bottomRightCell)
            + offsetHeight geo (position bottomRightCell)
            - offsetTop geo (position topLeftCell) |}.

(** The [div] built for the active cell: its width and height are
    computed as right edge minus left edge and bottom edge minus top
    edge of the one cell. *)
Definition activeCellBox (geo : Geometry) (activeCell : Cell) : Box :=
  {| box_active_cell := true;
     box_range := false;
     box_range_active := false;
     box_left := offsetLeft geo activeCell;
     box_top := offsetTop geo (position activeCell);
     box_width :=
       offsetLeft geo activeCell + offsetWidth geo activeCell
       - offsetLeft geo activeCell;
     box_height :=
       offsetTop geo (position activeCell)
       + offsetHeight geo (position activeCell)
       - offsetTop geo (position activeCell) |}.

(** The [this.ranges.forEach] loop of [layoutSelection].  The Range
    objects of [ranges] are pairwise distinct, so
    [range === activeRange] holds at the last index and nowhere else. *)
Definition rangeBoxes (t : Table) (geo : Geometry) (s : Spreadsheet)
  : option (list Box) :=
  mapM (fun '(i, range) =>
          rangeBox t geo (bool_decide (i = (length (ranges s) - 1)%nat)) range)
       (imap pair (ranges s)).

(** [layoutSelection()]; [None] when it throws, in which case what it has
    already written to the DOM is not modelled. *)
Definition layoutSelection (t : Table) (geo : Geometry) (s : Spreadsheet)
  : option Overlay :=
  active ← getActiveCell t s;
  activeCell ← active;
  let activeEl := activeCellBox geo activeCell in
  boxes ← rangeBoxes t geo s;
  Some {| overlay_left := scrollLeft geo;
          overlay_top := scrollTop geo;
          overlay_width := clientWidth geo;
          overlay_height := clientHeight geo;
          overlay_children := activeEl :: boxes |}.

(** ** Auxiliary notions for the statements below *)

(** A state the module can be in: the constructor's state followed by
    any events. *)
Definition reachable (t : Table) (s : Spreadsheet) : Prop :=
  exists es, s = run t new_Spreadsheet es.

(** The events that begin an interaction. *)
Definition isPointerDown (e : Event) : bool :=
  match e with
  | ColumnMouseDown _ _ | CellMouseDown _ _ => true
  | _ => false
  end.

(** The cell (r, c) is displayed: row position r+1 is on the page and
    the row has a cell at index c+1. *)
Definition displayedCell (t : Table) (r c : Z) : Prop :=
  0 <= r < Z.of_nat (displayedRows t) /\
  -1 <= c < Z.of_nat (length (columns t)) - 1.

(** A handler keeps a property of the state, whether it completes or
    throws. *)
Definition preserves {A} (P : Spreadsheet -> Prop) (m : Handler A) : Prop :=
  forall s, P s -> P (exec m s).

(** The mode [_select] and [handleColumnMouseDown] assign for a
    pointer-down on a target. *)
Definition modeOfCell (t : Table) (cell : Cell) : Selecting :=
  if isRowHeaderField t (column cell) then Srow else Scell.

Definition modeOfColumn (t : Table) (c : Column) : Selecting :=
  if isRowHeaderField t c then Sall else Scolumn.

(** The Range covering the single cell (r, c). *)
Definition singleCell (r c : Z) : Range :=
  setEnd r c (setStart r c (new_Range 0 0)).

(** The column a pointer target belongs to, and the move event the grid
    emits when the pointer is over it. *)
Definition componentColumn (element : Component) : Column :=
  match element with
  | ColumnComponent c => c
  | CellComponent cell => column cell
  end.

Definition moveOver (element : Component) : Event :=
  match element with
  | ColumnComponent c => ColumnMouseMove c
  | CellComponent cell => CellMouseMove cell
  end.

(** Every Range of the state has bounds that agree with its anchors. *)
Definition allConsistent (s : Spreadsheet) : Prop :=
  Forall bounds_consistent (ranges s).

(** A pointer-down on the corner header. *)
Definition isCornerDown (t : Table) (e : Event) : bool :=
  match e with
  | ColumnMouseDown _ c => isRowHeaderField t c
  | _ => false
  end.

(** * Verification *)

(** ** Range geometry *)

Lemma _updateMinMax_consistent g : bounds_consistent (_updateMinMax g).
Proof. repeat split. Qed.

Lemma runCall_consistent g k : bounds_consistent (runCall g k).
Proof. destruct k; apply _updateMinMax_consistent. Qed.

Lemma runCalls_consistent g ks :
  bounds_consistent g -> bounds_consistent (runCalls g ks).
Proof.
  unfold runCalls. revert g.
  induction ks as [|k ks IH]; intros g Hg; simpl; [exact Hg|].
  apply IH, runCall_consistent.
Qed.

Lemma consistent_ordered g :
  bounds_consistent g -> minRow g <= maxRow g /\ minCol g <= maxCol g.
Proof. intros (H1 & H2 & H3 & H4). rewrite H1, H2, H3, H4. lia. Qed.

(** The cells inside a range with consistent bounds are those of the
    rectangle spanned by its two anchors, whichever way round they are. *)
Lemma isInside_rectangle g r c :
  bounds_consistent g ->
  isInside g r c = true <->
  Z.min (row (start g)) (row (end_ g)) <= r <= Z.max (row (start g)) (row (end_ g)) /\
  Z.min (col (start g)) (col (end_ g)) <= c <= Z.max (col (start g)) (col (end_ g)).
Proof.
  intros (H1 & H2 & H3 & H4). unfold isInside.
  rewrite !andb_true_iff, !Z.leb_le, H1, H2, H3, H4. lia.
Qed.

(** C6: a Range built by the constructor and changed by any sequence of
    setStart/setEnd calls has minRow/maxRow/minCol/maxCol equal to the
    min/max of its anchors' coordinates, hence minRow <= maxRow and
    minCol <= maxCol; and after setStart(r,c); setEnd(r,c) on any Range
    all four bounds collapse to (r,c) and isInside(r,c) holds. *)
Theorem Range_bounds_follow_anchors :
  (forall r0 c0 ks,
     let g := runCalls (new_Range r0 c0) ks in
     bounds_consistent g /\ minRow g <= maxRow g /\ minCol g <= maxCol g) /\
  (forall g r c,
     let g' := setEnd r c (setStart r c g) in
     minRow g' = r /\ maxRow g' = r /\ minCol g' = c /\ maxCol g' = c /\
     isInside g' r c = true).
Proof.
  split.
  - intros r0 c0 ks g.
    assert (Hg : bounds_consistent g)
      by (apply runCalls_consistent, _updateMinMax_consistent).
    split; [exact Hg | now apply consistent_ordered].
  - intros g r c g'. subst g'. unfold isInside; simpl.
    rewrite Z.min_id, Z.max_id, Z.min_id, Z.max_id, !Z.leb_refl.
    repeat split.
Qed.

(** ** The handler monad *)

Lemma exec_bind {A B} (m : Handler A) (k : A -> Handler B) s :
  exec (m ≫= k) s =
  match fst (m s) with
  | Some a => exec (k a) (exec m s)
  | None => exec m s
  end.
Proof.
  unfold exec, mbind, Handler_bind, hbind.
  destruct (m s) as [[a|] s']; reflexivity.
Qed.

Lemma getActiveRange_last s : getActiveRange s = last (ranges s).
Proof.
  unfold getActiveRange. rewrite last_lookup. f_equal. lia.
Qed.

Lemma getActiveRange_snoc init a m :
  getActiveRange {| ranges := init ++ [a]; selecting := m |} = Some a.
Proof. rewrite getActiveRange_last. simpl. apply last_snoc. Qed.

Lemma getActiveRange_Some s a :
  getActiveRange s = Some a -> exists init, ranges s = init ++ [a].
Proof.
  rewrite getActiveRange_last. intros H.
  destruct (ranges s) as [|x l] using rev_ind; [discriminate|].
  rewrite last_snoc in H. injection H as ->. now exists l.
Qed.

Lemma onActiveRange_snoc f init a m :
  onActiveRange f {| ranges := init ++ [a]; selecting := m |} =
  (Some tt, {| ranges := init ++ [f a]; selecting := m |}).
Proof.
  unfold onActiveRange. rewrite getActiveRange_snoc. simpl.
  do 2 f_equal. rewrite length_app. simpl.
  replace (length init + 1 - 1)%nat with (length init + 0)%nat by lia.
  now rewrite alter_app_r.
Qed.

Lemma onActiveRange_length f s :
  length (ranges (exec (onActiveRange f) s)) = length (ranges s) /\
  selecting (exec (onActiveRange f) s) = selecting s.
Proof.
  unfold exec, onActiveRange.
  destruct (getActiveRange s); simpl; [|easy].
  now rewrite length_alter.
Qed.

(** Unfolds the monadic plumbing of a handler applied to a state, leaving
    calls of other handlers in place. *)
Ltac handler_simpl :=
  unfold exec, mbind, Handler_bind, hbind, read, set_selecting,
    set_ranges, defined, throw, hret;
  cbn [fst snd ranges selecting shiftKey ctrlKey plain shift ctrl].

(** Settles the tests on [this.selecting] once its value is known. *)
Ltac decide_mode :=
  repeat (case_decide || case_bool_decide); try congruence.

(** ** Extending the selection *)

Lemma endSelection_column_header t init a m c :
  endSelection t (ColumnComponent c) {| ranges := init ++ [a]; selecting := m |} =
  (Some tt,
   {| ranges := init ++ [match m with
                         | Scolumn => setEnd (rowsPerPage t - 1) (findColumnIndex t c - 1) a
                         | Scell => setEnd 0 (findColumnIndex t c - 1) a
                         | _ => a
                         end];
      selecting := m |}).
Proof.
  unfold endSelection. handler_simpl.
  destruct m; decide_mode; try reflexivity; apply onActiveRange_snoc.
Qed.

Lemma endSelection_cell t init a m cell :
  endSelection t (CellComponent cell) {| ranges := init ++ [a]; selecting := m |} =
  (Some tt,
   {| ranges :=
        init ++ [match m with
                 | Srow => setEnd (position cell - 1) (Z.of_nat (length (columns t)) - 2) a
                 | Scolumn =>
                     if isRowHeaderField t (column cell)
                     then setEnd (position cell - 1) 0 a
                     else setEnd (rowsPerPage t - 1)
                                 (findColumnIndex t (column cell) - 1) a
                 | _ =>
                     if isRowHeaderField t (column cell)
                     then setEnd (position cell - 1) 0 a
                     else setEnd (position cell - 1)
                                 (findColumnIndex t (column cell) - 1) a
                 end];
      selecting := m |}).
Proof.
  unfold endSelection. handler_simpl.
  destruct m; decide_mode; destruct (isRowHeaderField t (column cell)); simpl;
    decide_mode; apply onActiveRange_snoc.
Qed.

Lemma beginSelection_snoc t init a m el :
  beginSelection t el {| ranges := init ++ [a]; selecting := m |} =
  (Some tt,
   {| ranges :=
        init ++ [match el with
                 | ColumnComponent c => setStart 0 (findColumnIndex t c - 1) a
                 | CellComponent cell =>
                     if isRowHeaderField t (column cell)
                     then setStart (position cell - 1) 0 a
                     else setStart (position cell - 1)
                                   (findColumnIndex t (column cell) - 1) a
                 end];
      selecting := m |}).
Proof.
  unfold beginSelection. destruct el as [c|cell]; simpl.
  - apply onActiveRange_snoc.
  - destruct (isRowHeaderField t (column cell)); apply onActiveRange_snoc.
Qed.

(** In [column] mode the row-header branch of [endSelection] is reached
    before the column branch: a row-header cell pins the end anchor to
    its own row and to column 0. *)
Lemma row_header_cell_pins_column_drag t s a cell :
  selecting s = Scolumn ->
  getActiveRange s = Some a ->
  isRowHeaderField t (column cell) = true ->
  exists a',
    getActiveRange (exec (endSelection t (CellComponent cell)) s) = Some a' /\
    end_ a' = {| row := position cell - 1; col := 0 |}.
Proof.
  intros Hm Ha Hh. destruct s as [rs m]. simpl in Hm. subst m.
  destruct (getActiveRange_Some _ _ Ha) as [init Hr]. simpl in Hr. subst rs.
  unfold exec. rewrite endSelection_cell, Hh. simpl.
  eexists. split; [apply getActiveRange_snoc | reflexivity].
Qed.

(** C1 (amended): while the mode is [column], on a page that shows as
    many rows as [rowsPerPage] reports, extending the selection with a
    column header or an ordinary cell whose column index is c sets the
    active range's end anchor to (lastRow, c), lastRow being the page's
    displayed row count minus 1; the start anchor, the other ranges and
    the mode stay as they were. *)
Theorem endSelection_column_mode t s a element :
  selecting s = Scolumn ->
  getActiveRange s = Some a ->
  notRowHeaderCell t element ->
  rowsPerPage t = Z.of_nat (displayedRows t) ->
  let lastRow := Z.of_nat (displayedRows t) - 1 in
  exists init a',
    ranges s = init ++ [a] /\
    endSelection t element s =
      (Some tt, {| ranges := init ++ [a']; selecting := Scolumn |}) /\
    getActiveRange (exec (endSelection t element) s) = Some a' /\
    start a' = start a /\
    end_ a' = {| row := lastRow; col := targetColumn t element |}.
Proof.
  intros Hm Ha Hel Hfull lastRow. subst lastRow. rewrite <- Hfull.
  destruct s as [rs m]. simpl in Hm. subst m.
  destruct (getActiveRange_Some _ _ Ha) as [init Hr]. simpl in Hr. subst rs.
  exists init. destruct element as [c|cell]; simpl in Hel.
  - eexists. split; [reflexivity|]. unfold exec.
    rewrite endSelection_column_header. simpl.
    split; [reflexivity|]. split; [apply getActiveRange_snoc|]. split; reflexivity.
  - eexists. split; [reflexivity|]. unfold exec.
    rewrite endSelection_cell, Hel. simpl.
    split; [reflexivity|]. split; [apply getActiveRange_snoc|]. split; reflexivity.
Qed.

(** A column-initiated drag on [sampleTable] (six rows, all displayed),
    extended over the ordinary cell (3, c). *)
Lemma endSelection_column_mode_witness :
  exists init a',
    ranges (step sampleTable new_Spreadsheet (ColumnMouseDown plain colB)) = init ++ [setEnd 5 1 (setStart 0 1 (new_Range 0 0))] /\
    endSelection sampleTable (CellComponent (cellAt 3 colC))
      (step sampleTable new_Spreadsheet (ColumnMouseDown plain colB)) =
      (Some tt, {| ranges := init ++ [a']; selecting := Scolumn |}) /\
    getActiveRange
      (exec (endSelection sampleTable (CellComponent (cellAt 3 colC)))
         (step sampleTable new_Spreadsheet (ColumnMouseDown plain colB))) = Some a' /\
    start a' = start (setEnd 5 1 (setStart 0 1 (new_Range 0 0))) /\
    end_ a' = {| row := 5; col := 2 |}.
Proof.
  apply (endSelection_column_mode sampleTable
           (step sampleTable new_Spreadsheet (ColumnMouseDown plain colB))
           (setEnd 5 1 (setStart 0 1 (new_Range 0 0)))
           (CellComponent (cellAt 3 colC)));
    reflexivity.
Defined.

(** C1 as stated fails for a row-header target: on [sampleTable]
    (six rows, so lastRow = 5) a column drag started on column b and
    moved over the row-header cell of row 3, whose column index is -1,
    leaves the end anchor at (3, 0) and not at (5, -1). *)
Lemma endSelection_column_mode_counterexample :
  let s := step sampleTable new_Spreadsheet (ColumnMouseDown plain colB) in
  let target := CellComponent (cellAt 3 rowHeader) in
  selecting s = Scolumn /\
  targetColumn sampleTable target = -1 /\
  rowsPerPage sampleTable - 1 = 5 /\
  Z.of_nat (displayedRows sampleTable) - 1 = 5 /\
  (end_ <$> getActiveRange (exec (endSelection sampleTable target) s))
    = Some {| row := 3; col := 0 |} /\
  (end_ <$> getActiveRange (exec (endSelection sampleTable target) s))
    <> Some {| row := rowsPerPage sampleTable - 1;
               col := targetColumn sampleTable target |}.
Proof. vm_compute. repeat split; discriminate. Qed.

(** ** Page change *)

(** C2 (amended): a page-change event, at any state including mid-drag,
    replaces [ranges] by a single fresh Range with both anchors at (0,0)
    and leaves [selecting] as it was. *)
Theorem handlePageChanged_resets_ranges t s :
  dispatch t PageChanged s =
    (Some tt, {| ranges := [new_Range 0 0]; selecting := selecting s |}) /\
  ranges (step t s PageChanged) = [new_Range 0 0] /\
  start (new_Range 0 0) = {| row := 0; col := 0 |} /\
  end_ (new_Range 0 0) = {| row := 0; col := 0 |} /\
  selecting (step t s PageChanged) = selecting s.
Proof. repeat split. Qed.

(** C2 as stated fails on the mode: in the middle of a cell drag on
    [sampleTable] a page change resets the ranges, yet [selecting] is
    still [cell], so the controller has not gone back to idle. *)
Lemma handlePageChanged_counterexample :
  let s := run sampleTable new_Spreadsheet
             [CellMouseDown plain (cellAt 1 colA); CellMouseMove (cellAt 2 colB)] in
  let s' := step sampleTable s PageChanged in
  selecting s = Scell /\
  ranges s' = [new_Range 0 0] /\
  selecting s' = Scell /\
  ~ (ranges s' = [new_Range 0 0] /\ selecting s' = Sfalse).
Proof.
  vm_compute. repeat split. intros [_ H]. discriminate H.
Qed.

(** ** Whole-row and whole-column status *)

Lemma handleMouseUp_idle t s : selecting (step t s MouseUp) = Sfalse.
Proof. reflexivity. Qed.

(** C10: when [selecting] is [false] (the idle state every pointer-up
    leaves), the row-fully-selected and column-fully-selected predicates
    are false for every row and column, whatever [ranges] holds. *)
Theorem idle_selects_no_full_row_or_column t s :
  selecting s = Sfalse ->
  (forall r, selectingAllColumnsOfRow t s r = false) /\
  (forall c, selectingAllRowsOfColumn t s c = false).
Proof.
  intros Hm.
  unfold selectingAllColumnsOfRow, selectingAllRowsOfColumn. rewrite Hm.
  split; intros x; simpl; induction (ranges s) as [|g l IH]; simpl; auto.
Qed.

(** A row-header drag over rows 2..5 of [sampleTable], released. *)
Lemma idle_selects_no_full_row_or_column_witness :
  let s := run sampleTable new_Spreadsheet
             [CellMouseDown plain (cellAt 2 rowHeader);
              CellMouseMove (cellAt 5 rowHeader); MouseUp] in
  (forall r, selectingAllColumnsOfRow sampleTable s r = false) /\
  (forall c, selectingAllRowsOfColumn sampleTable s c = false).
Proof.
  apply (idle_selects_no_full_row_or_column sampleTable
           (run sampleTable new_Spreadsheet
              [CellMouseDown plain (cellAt 2 rowHeader);
               CellMouseMove (cellAt 5 rowHeader); MouseUp])).
  reflexivity.
Defined.

(** ** Initialisation *)

(** C9: with the SelectRow module present, [initialize] logs one error
    and leaves subscriptions, document listeners, column definitions,
    classes and overlay untouched; without it, the eight subscriptions
    and the mouseup listener are added and the table gets its row-header
    column. *)
Theorem initialize_refuses_with_selectRow rowHeaderField h :
  (modules_selectRow h = true ->
   subscriptions (initialize rowHeaderField h) = subscriptions h /\
   documentListeners (initialize rowHeaderField h) = documentListeners h /\
   options_columns (initialize rowHeaderField h) = options_columns h /\
   element_classList (initialize rowHeaderField h) = element_classList h /\
   overlays (initialize rowHeaderField h) = overlays h /\
   console_error (initialize rowHeaderField h) = console_error h ++ [clashMessage]) /\
  (modules_selectRow h = false ->
   subscriptions (initialize rowHeaderField h) =
     subscriptions h ++
       ["column-mousedown"; "column-mousemove"; "cell-mousedown";
        "cell-mousemove"; "cell-rendered"; "page-changed"; "table-layout";
        "table-destroy"] /\
   documentListeners (initialize rowHeaderField h) =
     documentListeners h ++ ["mouseup"] /\
   options_columns (initialize rowHeaderField h) =
     rowHeaderDefinition rowHeaderField
       :: map disableHeaderSort (options_columns h) /\
   console_error (initialize rowHeaderField h) = console_error h).
Proof.
  unfold initialize. split; intros ->; simpl.
  - repeat split.
  - repeat split. now rewrite <- !app_assoc.
Qed.

Lemma initialize_refuses_with_selectRow_witness :
  (subscriptions (initialize "--row-position" (sampleHost true)) = [] /\
   options_columns (initialize "--row-position" (sampleHost true)) =
     [sampleDefinition "a"; sampleDefinition "b"] /\
   console_error (initialize "--row-position" (sampleHost true)) = [clashMessage]) /\
  length (subscriptions (initialize "--row-position" (sampleHost false))) = 8%nat.
Proof.
  split.
  - destruct (initialize_refuses_with_selectRow "--row-position" (sampleHost true))
      as [Hclash _].
    destruct (Hclash eq_refl) as (Hs & _ & Hc & _ & _ & He).
    rewrite Hs, Hc, He. repeat split.
  - destruct (initialize_refuses_with_selectRow "--row-position" (sampleHost false))
      as [_ Hfree].
    destruct (Hfree eq_refl) as (Hs & _). rewrite Hs. reflexivity.
Defined.

(** ** Slices *)

Lemma slice_last {A} (l : list A) (a : A) : slice (l ++ [a]) (-1) None = [a].
Proof.
  unfold slice. rewrite length_app. simpl.
  replace (Z.to_nat (Z.of_nat (length l + 1) - Z.max (Z.of_nat (length l + 1) + -1) 0))
    with 1%nat by lia.
  replace (Z.to_nat (Z.max (Z.of_nat (length l + 1) + -1) 0)) with (length l) by lia.
  now rewrite drop_app_length.
Qed.

Lemma slice_last_nonempty {A} (l : list A) : l <> [] -> slice l (-1) None <> [].
Proof.
  destruct l as [|x l'] using rev_ind; [congruence|].
  intros _. now rewrite slice_last.
Qed.

(** ** Drag from a row header *)

Lemma mouseDown_row_header t s0 hdr :
  isRowHeaderField t (column hdr) = true ->
  step t s0 (CellMouseDown plain hdr) =
  {| ranges := [setEnd (position hdr - 1) (Z.of_nat (length (columns t)) - 2)
                  (setStart (position hdr - 1) 0 (new_Range 0 0))];
     selecting := Srow |}.
Proof.
  intros Hh. unfold step, dispatch, handleCellMouseDown, _select.
  rewrite Hh. handler_simpl.
  pose proof (beginSelection_snoc t [] (new_Range 0 0) Srow (CellComponent hdr)) as Hb.
  cbn [app] in Hb. rewrite Hb, Hh.
  pose proof (endSelection_cell t [] (setStart (position hdr - 1) 0 (new_Range 0 0))
                Srow hdr) as He.
  cbn [app] in He. now rewrite He.
Qed.

Lemma move_row_mode t g e :
  isPointerMove e = true ->
  exists g',
    step t {| ranges := [g]; selecting := Srow |} e =
      {| ranges := [g']; selecting := Srow |} /\
    start g' = start g.
Proof.
  destruct e as [| c | | cell | |]; try discriminate; intros _;
    unfold step, dispatch.
  - unfold handleColumnMouseMove.
    destruct (isRowHeaderField t c); [now exists g|].
    handler_simpl. decide_mode.
    pose proof (endSelection_column_header t [] g Srow c) as He.
    cbn [app] in He. rewrite He. now exists g.
  - unfold handleCellMouseMove. handler_simpl. decide_mode.
    pose proof (endSelection_cell t [] g Srow cell) as He.
    cbn [app] in He. rewrite He. eexists. split; reflexivity.
Qed.

Lemma moves_row_mode t moves : forall g,
  forallb isPointerMove moves = true ->
  exists g',
    run t {| ranges := [g]; selecting := Srow |} moves =
      {| ranges := [g']; selecting := Srow |} /\
    start g' = start g.
Proof.
  induction moves as [|e moves IH]; intros g Hall; simpl in *.
  - now exists g.
  - apply andb_true_iff in Hall as [He Hall].
    destruct (move_row_mode t g e He) as (g1 & -> & Hs1).
    destruct (IH g1 Hall) as (g2 & Hrun & Hs2).
    exists g2. split; [exact Hrun | congruence].
Qed.

Lemma selectingAllColumnsOfRow_row_mode t g r :
  col (start g) = 0 ->
  col (end_ g) = Z.of_nat (length (columns t)) - 2 ->
  selectingAllColumnsOfRow t {| ranges := [g]; selecting := Srow |} r
    = withinRow g r.
Proof.
  intros Hs He. unfold selectingAllColumnsOfRow.
  cbn [ranges selecting existsb]. decide_mode.
  now rewrite Hs, He, !Z.eqb_refl, orb_false_r.
Qed.

(** C3: a plain pointer-down on the row-header cell of row 2 followed by
    pointer moves that end over a cell of row 5 leaves one range with
    start (2,0) and end (5, last data column), rows 2..5; while
    [selecting] is still [row], the row-fully-selected predicate holds
    exactly for rows 2 to 5. *)
Theorem row_header_drag_selects_rows t s0 hdr moves target :
  isRowHeaderField t (column hdr) = true ->
  position hdr - 1 = 2 ->
  forallb isPointerMove moves = true ->
  position target - 1 = 5 ->
  let lastCol := Z.of_nat (length (columns t)) - 2 in
  let s := run t s0 (CellMouseDown plain hdr :: moves ++ [CellMouseMove target]) in
  exists g,
    ranges s = [g] /\
    selecting s = Srow /\
    start g = {| row := 2; col := 0 |} /\
    end_ g = {| row := 5; col := lastCol |} /\
    minRow g = 2 /\ maxRow g = 5 /\
    (forall r, selectingAllColumnsOfRow t s r = true <-> 2 <= r <= 5).
Proof.
  intros Hh Hrow Hmoves Htarget lastCol s. subst s.
  unfold run. simpl. fold (run t). rewrite foldl_app. simpl.
  rewrite (mouseDown_row_header _ _ _ Hh), Hrow.
  destruct (moves_row_mode t moves
              (setEnd 2 lastCol (setStart 2 0 (new_Range 0 0))) Hmoves)
    as (g1 & Hrun & Hs1).
  unfold run in Hrun. fold lastCol. rewrite Hrun. simpl in Hs1.
  unfold step, dispatch, handleCellMouseMove. handler_simpl. decide_mode.
  pose proof (endSelection_cell t [] g1 Srow target) as He.
  cbn [app] in He. rewrite He, Htarget. simpl.
  eexists. split; [reflexivity|]. split; [reflexivity|].
  set (g := setEnd 5 (Z.of_nat (length (columns t)) - 2) g1).
  assert (Hstart : start g = {| row := 2; col := 0 |}) by exact Hs1.
  assert (Hmin : minRow g = 2) by (subst g; simpl; rewrite Hs1; reflexivity).
  assert (Hmax : maxRow g = 5) by (subst g; simpl; rewrite Hs1; reflexivity).
  split; [exact Hstart|]. split; [reflexivity|].
  split; [exact Hmin|]. split; [exact Hmax|].
  intros r. rewrite selectingAllColumnsOfRow_row_mode.
  - unfold withinRow. rewrite Hmin, Hmax, andb_true_iff, Z.geb_le, Z.leb_le. lia.
  - now rewrite Hstart.
  - reflexivity.
Qed.

Lemma row_header_drag_selects_rows_witness :
  let s := run sampleTable new_Spreadsheet
             (CellMouseDown plain (cellAt 2 rowHeader)
                :: [CellMouseMove (cellAt 3 colA); ColumnMouseMove colB]
                ++ [CellMouseMove (cellAt 5 colC)]) in
  exists g,
    ranges s = [g] /\
    selecting s = Srow /\
    start g = {| row := 2; col := 0 |} /\
    end_ g = {| row := 5; col := 2 |} /\
    minRow g = 2 /\ maxRow g = 5 /\
    (forall r, selectingAllColumnsOfRow sampleTable s r = true <-> 2 <= r <= 5).
Proof.
  apply (row_header_drag_selects_rows sampleTable new_Spreadsheet
           (cellAt 2 rowHeader)
           [CellMouseMove (cellAt 3 colA); ColumnMouseMove colB]
           (cellAt 5 colC));
    reflexivity.
Defined.

(** ** Shift-click *)

(** C4: a shift pointer-down on an ordinary cell B, with the active
    range anchored at A, leaves exactly one range; its start is still A,
    its end is B, and it contains exactly the cells of the rectangle with
    corners A and B. *)
Theorem shift_click_spans_rectangle t s a event cell :
  shiftKey event = true ->
  getActiveRange s = Some a ->
  isRowHeaderField t (column cell) = false ->
  let A := start a in
  let B := {| row := position cell - 1;
              col := findColumnIndex t (column cell) - 1 |} in
  let s' := step t s (CellMouseDown event cell) in
  exists g,
    ranges s' = [g] /\
    getActiveRange s' = Some g /\
    start g = A /\
    end_ g = B /\
    (forall r c,
       isInside g r c = true <->
       Z.min (row A) (row B) <= r <= Z.max (row A) (row B) /\
       Z.min (col A) (col B) <= c <= Z.max (col A) (col B)).
Proof.
  intros Hshift Ha Hcell A B s'. subst s'.
  destruct s as [rs m].
  destruct (getActiveRange_Some _ _ Ha) as [init Hr]. simpl in Hr. subst rs.
  unfold step, dispatch, handleCellMouseDown, _select.
  rewrite Hcell, Hshift. handler_simpl.
  assert (Hend :
    snd (endSelection t (CellComponent cell) {| ranges := [a]; selecting := Scell |})
    = {| ranges := [setEnd (row B) (col B) a]; selecting := Scell |}).
  { pose proof (endSelection_cell t [] a Scell cell) as He.
    cbn [app] in He. now rewrite He, Hcell. }
  assert (Hone : (if 1 <? Z.of_nat (length (init ++ [a]))
                  then slice (init ++ [a]) (-1) None
                  else init ++ [a]) = [a]).
  { destruct (1 <? Z.of_nat (length (init ++ [a]))) eqn:Hlen.
    - apply slice_last.
    - apply Z.ltb_ge in Hlen. rewrite length_app in Hlen. simpl in Hlen.
      destruct init as [|x init]; [reflexivity | simpl in Hlen; lia]. }
  destruct (1 <? Z.of_nat (length (init ++ [a])));
    cbn [fst snd ranges selecting]; rewrite Hone, Hend; cbn [ranges].
  all: exists (setEnd (row B) (col B) a).
  all: do 4 (split; [reflexivity|]).
  all: intros r c; apply isInside_rectangle, _updateMinMax_consistent.
Qed.

(** Click on (1, a), then shift-click on (3, c) in [sampleTable]. *)
Lemma shift_click_spans_rectangle_witness :
  let s := step sampleTable new_Spreadsheet (CellMouseDown plain (cellAt 1 colA)) in
  let s' := step sampleTable s (CellMouseDown shift (cellAt 3 colC)) in
  exists g,
    ranges s' = [g] /\
    getActiveRange s' = Some g /\
    start g = {| row := 1; col := 0 |} /\
    end_ g = {| row := 3; col := 2 |} /\
    (forall r c, isInside g r c = true <-> 1 <= r <= 3 /\ 0 <= c <= 2).
Proof.
  apply (shift_click_spans_rectangle sampleTable
           (step sampleTable new_Spreadsheet (CellMouseDown plain (cellAt 1 colA)))
           (setEnd 1 0 (setStart 1 0 (new_Range 0 0)))
           shift (cellAt 3 colC));
    reflexivity.
Defined.

(** ** Corner header *)

Lemma findIndex_lookup (cols : list Column) : forall i c,
  NoDup (cid <$> cols) ->
  cols !! i = Some c ->
  findIndex (fun c' => Nat.eqb (cid c') (cid c)) cols = Z.of_nat i.
Proof.
  induction cols as [|x l IH]; intros i c Hnd Hi; [discriminate|].
  rewrite fmap_cons in Hnd. apply NoDup_cons in Hnd as [Hx Hnd].
  destruct i as [|i]; simpl in *.
  - injection Hi as ->. now rewrite Nat.eqb_refl.
  - destruct (Nat.eqb (cid x) (cid c)) eqn:Heq.
    + apply Nat.eqb_eq in Heq. exfalso. apply Hx. rewrite Heq.
      apply list_elem_of_fmap. exists c. split; [reflexivity|].
      eapply list_elem_of_lookup_2; eassumption.
    + rewrite (IH i c Hnd Hi).
      destruct (Z.of_nat i <? 0) eqn:Hneg; [apply Z.ltb_lt in Hneg|]; lia.
Qed.

Lemma findColumnIndex_lookup t i c :
  NoDup (cid <$> columns t) ->
  columns t !! i = Some c ->
  findColumnIndex t c = Z.of_nat i.
Proof. apply findIndex_lookup. Qed.

Lemma at_index_single {A} (x : A) : at_index [x] 0 = Some x.
Proof. reflexivity. Qed.

Lemma slice_last_is_last {A} (l : list A) :
  at_index (slice l (-1) None) 0 = last l.
Proof.
  destruct l as [|x l' _] using rev_ind; [reflexivity|].
  now rewrite slice_last, last_snoc.
Qed.


Lemma selecting_all_predicates t s :
  selecting s = Sall ->
  (forall r, selectingAllColumnsOfRow t s r = true) /\
  (forall c, selectingAllRowsOfColumn t s c = true).
Proof.
  intros Hm. unfold selectingAllColumnsOfRow, selectingAllRowsOfColumn.
  rewrite Hm. split; intros x; decide_mode.
Qed.

(** The corner header click ends the range on the row of whatever cell
    is last in the last column's cell array. *)
Lemma corner_header_range t s event corner p :
  isRowHeaderField t corner = true ->
  gridReady t ->
  (forall c, last (Column_getCells t c) = Some {| position := p; column := c |}) ->
  let lastCol := Z.of_nat (length (columns t)) - 2 in
  step t s (ColumnMouseDown event corner) =
  {| ranges := [setEnd (p - 1) lastCol (setStart 0 0 (new_Range 0 0))];
     selecting := Sall |}.
Proof.
  intros Hcorner (Hnd & Hlen & Hlast & Hrows) Hbottom lastCol.
  assert (Hsnoc : exists front lastc, columns t = front ++ [lastc]).
  { destruct (columns t) as [|lastc front _] using rev_ind;
      [simpl in Hlen; lia | eauto]. }
  destruct Hsnoc as (front & lastc & Hcols).
  assert (Hfront : (1 <= length front)%nat)
    by (rewrite Hcols, length_app in Hlen; simpl in Hlen; lia).
  destruct (displayedRows t) as [|n] eqn:Hn; [lia|].
  assert (Hc1 : exists c1, columns t !! 1%nat = Some c1).
  { apply lookup_lt_is_Some_2. lia. }
  destruct Hc1 as [c1 Hc1].
  assert (Hi1 : findColumnIndex t c1 = 1)
    by now rewrite (findColumnIndex_lookup t 1 c1).
  assert (HiL : findColumnIndex t lastc = Z.of_nat (length (columns t)) - 1).
  { rewrite (findColumnIndex_lookup t (length front) lastc).
    - rewrite Hcols, length_app. simpl. lia.
    - assumption.
    - rewrite Hcols. apply list_lookup_middle. reflexivity. }
  assert (HhL : isRowHeaderField t lastc = false).
  { apply Hlast. rewrite Hcols. apply last_snoc. }
  assert (Hlc : at_index (slice (columns t) (-1) None) 0 = Some lastc)
    by now rewrite Hcols, slice_last.
  assert (Htl : at_index (map (fun c => {| position := 1; column := c |}) (columns t)) 1
                = Some {| position := 1; column := c1 |}).
  { unfold at_index. change (Z.to_nat 1) with 1%nat. simpl.
    now rewrite list_lookup_fmap, Hc1. }
  unfold step, dispatch, handleColumnMouseDown.
  rewrite Hcorner. handler_simpl.
  unfold getRowFromPosition_getCells. rewrite Hn.
  replace ((1 <=? 1) && (1 <=? Z.of_nat (S n))) with true
    by (symmetry; apply andb_true_iff; split; apply Z.leb_le; lia).
  rewrite Hlc, Htl. cbn [fst snd]. rewrite slice_last_is_last, (Hbottom lastc).
  pose proof (beginSelection_snoc t [] (new_Range 0 0) Sall
                (CellComponent {| position := 1; column := c1 |})) as Hb.
  cbn [app position column] in Hb. rewrite Hb. clear Hb.
  pose proof (endSelection_cell t []
                (if isRowHeaderField t c1
                 then setStart (1 - 1) 0 (new_Range 0 0)
                 else setStart (1 - 1) (findColumnIndex t c1 - 1) (new_Range 0 0))
                Sall {| position := p; column := lastc |}) as He.
  cbn [app position column] in He. rewrite He. clear He.
  rewrite HhL, Hi1, HiL. cbn [snd].
  replace (1 - 1) with 0 by lia.
  replace (Z.of_nat (length (columns t)) - 1 - 1) with lastCol by (unfold lastCol; lia).
  now destruct (isRowHeaderField t c1).
Qed.

(** While the last cell of each column's cell array is on the last
    displayed row, pointer-down on the corner header leaves exactly one
    range from (0,0) to (lastRow, lastCol), sets the mode to [all], and
    makes the row-fully-selected and column-fully-selected predicates
    true for every row and every column. *)
Lemma corner_header_selects_grid t s event corner :
  isRowHeaderField t corner = true ->
  gridReady t ->
  lastCellAtBottom t ->
  let lastRow := Z.of_nat (displayedRows t) - 1 in
  let lastCol := Z.of_nat (length (columns t)) - 2 in
  let s' := step t s (ColumnMouseDown event corner) in
  exists g,
    ranges s' = [g] /\
    start g = {| row := 0; col := 0 |} /\
    end_ g = {| row := lastRow; col := lastCol |} /\
    minRow g = 0 /\ maxRow g = lastRow /\ minCol g = 0 /\ maxCol g = lastCol /\
    selecting s' = Sall /\
    (forall r, selectingAllColumnsOfRow t s' r = true) /\
    (forall c, selectingAllRowsOfColumn t s' c = true).
Proof.
  intros Hcorner Hgrid Hbottom lastRow lastCol s'. subst s'.
  rewrite (corner_header_range t s event corner (Z.of_nat (displayedRows t))
             Hcorner Hgrid Hbottom).
  destruct Hgrid as (_ & Hlen & _ & Hrows).
  fold lastRow lastCol. eexists. split; [reflexivity|].
  assert (0 <= lastRow) by (unfold lastRow; lia).
  assert (0 <= lastCol) by (unfold lastCol; lia).
  simpl. repeat split; try lia;
    apply (selecting_all_predicates t
             {| ranges := [setEnd lastRow lastCol (setStart 0 0 (new_Range 0 0))];
                selecting := Sall |}); reflexivity.
Qed.

(** Corner click on [sampleTable]: six rows, three data columns. *)
Lemma corner_header_selects_grid_witness :
  let s' := step sampleTable new_Spreadsheet (ColumnMouseDown plain rowHeader) in
  exists g,
    ranges s' = [g] /\
    start g = {| row := 0; col := 0 |} /\
    end_ g = {| row := 5; col := 2 |} /\
    minRow g = 0 /\ maxRow g = 5 /\ minCol g = 0 /\ maxCol g = 2 /\
    selecting s' = Sall /\
    (forall r, selectingAllColumnsOfRow sampleTable s' r = true) /\
    (forall c, selectingAllRowsOfColumn sampleTable s' c = true).
Proof.
  apply (corner_header_selects_grid sampleTable new_Spreadsheet plain rowHeader).
  - reflexivity.
  - unfold gridReady. split; [|split; [|split]].
    + apply (bool_decide_unpack _). vm_compute. reflexivity.
    + simpl. lia.
    + intros c Hc. vm_compute in Hc. injection Hc as <-. reflexivity.
    + simpl. lia.
  - intros c. reflexivity.
Defined.

(** C5: pointer-down on the corner header is meant to select the whole
    grid, (0,0) to (lastRow, lastCol), and the code takes the last cell
    of the last column's cell array for the bottom-right cell.  On
    [sortedTable] (six rows displayed, so lastRow = 5; the last-created
    row sorted to the top) that cell is on row 0: the one range left is
    (0,0)-(0,2), rows 1..5 are outside it, while the mode is [all] and
    both predicates report every row and column fully selected. *)
Theorem corner_header_after_sort :
  let s' := step sortedTable new_Spreadsheet (ColumnMouseDown plain rowHeader) in
  Z.of_nat (displayedRows sortedTable) - 1 = 5 /\
  Z.of_nat (length (columns sortedTable)) - 2 = 2 /\
  ranges s' = [setEnd 0 2 (setStart 0 0 (new_Range 0 0))] /\
  (end_ <$> getActiveRange s') = Some {| row := 0; col := 2 |} /\
  (end_ <$> getActiveRange s') <> Some {| row := 5; col := 2 |} /\
  cellSelected s' 5 2 = false /\
  selecting s' = Sall /\
  (forall r, selectingAllColumnsOfRow sortedTable s' r = true) /\
  (forall c, selectingAllRowsOfColumn sortedTable s' c = true).
Proof.
  intros s'.
  split; [reflexivity|]. split; [reflexivity|]. split; [reflexivity|].
  split; [reflexivity|]. split; [vm_compute; discriminate|].
  split; [reflexivity|]. split; [reflexivity|].
  apply selecting_all_predicates. reflexivity.
Qed.

(** ** The ranges list is never empty *)

Section NonEmpty.

Create HintDb handlers.

Lemma keeps_bind {A B} (m : Handler A) (k : A -> Handler B) :
  keeps m -> (forall a, keeps (k a)) -> keeps (m ≫= k).
Proof.
  intros Hm Hk s Hs. rewrite exec_bind.
  destruct (fst (m s)); [apply Hk|]; now apply Hm.
Qed.

Lemma keeps_hret {A} (a : A) : keeps (hret a).
Proof. now intros s Hs. Qed.

Lemma keeps_throw {A} : keeps (@throw A).
Proof. now intros s Hs. Qed.

Lemma keeps_defined {A} (o : option A) : keeps (defined o).
Proof. destruct o; [apply keeps_hret | apply keeps_throw]. Qed.

Lemma keeps_read {A} (f : Spreadsheet -> A) : keeps (read f).
Proof. now intros s Hs. Qed.

Lemma keeps_set_selecting m : keeps (set_selecting m).
Proof. now intros s Hs. Qed.

Lemma keeps_set_ranges l : l <> [] -> keeps (set_ranges l).
Proof. now intros Hl s Hs. Qed.

Lemma keeps_onActiveRange f : keeps (onActiveRange f).
Proof.
  intros s Hs Hnil. apply Hs.
  destruct (onActiveRange_length f s) as [Hlen _].
  rewrite Hnil in Hlen. now destruct (ranges s).
Qed.

Lemma keeps_if {A} (b : bool) (m1 m2 : Handler A) :
  keeps m1 -> keeps m2 -> keeps (if b then m1 else m2).
Proof. now destruct b. Qed.

Lemma keeps_decide {A} (P : Prop) `{Decision P} (m1 m2 : Handler A) :
  keeps m1 -> keeps m2 -> keeps (if decide P then m1 else m2).
Proof. now destruct (decide P). Qed.

#[local] Hint Resolve keeps_hret keeps_throw keeps_defined keeps_read
  keeps_set_selecting keeps_onActiveRange : handlers.

Lemma keeps_beginSelection t el : keeps (beginSelection t el).
Proof.
  destruct el as [c|cell]; unfold beginSelection; auto with handlers.
  apply keeps_if; auto with handlers.
Qed.

Lemma keeps_endSelection t el : keeps (endSelection t el).
Proof.
  destruct el as [c|cell]; unfold endSelection;
    apply keeps_bind; auto with handlers; intros sel;
    repeat (apply keeps_decide || apply keeps_if); auto with handlers.
Qed.

#[local] Hint Resolve keeps_beginSelection keeps_endSelection : handlers.

Lemma keeps__select t event el : keeps (_select t event el).
Proof.
  unfold _select. apply keeps_bind.
  - destruct el; [|apply keeps_if]; auto with handlers.
  - intros _. repeat apply keeps_if.
    + apply keeps_bind; auto with handlers. intros rs.
      apply keeps_bind; auto with handlers.
      destruct (1 <? Z.of_nat (length rs)) eqn:Hlen; auto with handlers.
      apply keeps_set_ranges, slice_last_nonempty.
      apply Z.ltb_lt in Hlen. destruct rs; [simpl in Hlen; lia | easy].
    + apply keeps_bind; auto with handlers. intros rs.
      apply keeps_bind; [apply keeps_set_ranges; now destruct rs|].
      intros _. apply keeps_bind; auto with handlers.
    + apply keeps_bind; [now apply keeps_set_ranges|].
      intros _. apply keeps_bind; auto with handlers.
Qed.

Lemma keeps_dispatch t e : keeps (dispatch t e).
Proof.
  destruct e as [event c | c | event cell | cell | |]; simpl.
  - unfold handleColumnMouseDown. apply keeps_if; [|apply keeps__select].
    apply keeps_bind; [now apply keeps_set_ranges|]. intros _.
    repeat (apply keeps_bind; auto with handlers; intros ?).
  - unfold handleColumnMouseMove. apply keeps_if; auto with handlers.
    apply keeps_bind; auto with handlers. intros sel.
    apply keeps_decide; auto with handlers.
  - apply keeps__select.
  - unfold handleCellMouseMove.
    apply keeps_bind; auto with handlers. intros sel.
    apply keeps_decide; auto with handlers.
  - apply keeps_set_selecting.
  - now apply keeps_set_ranges.
Qed.

End NonEmpty.

(** C7: after construction and after any sequence of pointer-down (plain,
    ctrl or shift), pointer-move, pointer-up and page-change events,
    [ranges] is non-empty and [getActiveRange] returns its last element. *)
Theorem ranges_never_empty t es :
  let s := run t new_Spreadsheet es in
  ranges s <> [] /\
  (exists a, getActiveRange s = Some a) /\
  getActiveRange s = last (ranges s).
Proof.
  intros s.
  assert (Hne : ranges s <> []).
  { subst s. unfold run.
    assert (Hgen : forall s0, ranges s0 <> [] -> ranges (foldl (step t) s0 es) <> []).
    { induction es as [|e es IH]; intros s0 Hs0; simpl; [exact Hs0|].
      apply IH. now apply keeps_dispatch. }
    now apply Hgen. }
  split; [exact Hne|]. split; [|apply getActiveRange_last].
  rewrite getActiveRange_last.
  destruct (ranges s) as [|x l _] using rev_ind; [congruence|].
  rewrite last_snoc. eauto.
Qed.

(** ** Selected data *)

Lemma slice_inside {A} (l : list A) (b e : Z) :
  0 <= b <= e -> e <= Z.of_nat (length l) ->
  slice l b (Some e) = take (Z.to_nat (e - b)) (drop (Z.to_nat b) l).
Proof.
  intros Hb He. unfold slice.
  replace (b <? 0) with false by (symmetry; apply Z.ltb_ge; lia).
  replace (e <? 0) with false by (symmetry; apply Z.ltb_ge; lia).
  now rewrite !Z.min_l by lia.
Qed.

Lemma slice_inside_length {A} (l : list A) (b e : Z) :
  0 <= b <= e -> e <= Z.of_nat (length l) ->
  Z.of_nat (length (slice l b (Some e))) = e - b.
Proof.
  intros Hb He. rewrite slice_inside by assumption.
  rewrite length_take, length_drop. lia.
Qed.

Lemma slice_inside_elem {A} (l : list A) (b e : Z) (x : A) :
  0 <= b <= e -> e <= Z.of_nat (length l) ->
  x ∈ slice l b (Some e) <-> exists j, b <= j < e /\ at_index l j = Some x.
Proof.
  intros Hb He. rewrite slice_inside by assumption.
  rewrite list_elem_of_lookup. split.
  - intros [i Hi]. apply lookup_take_Some in Hi as [Hi Hlt].
    rewrite lookup_drop in Hi.
    exists (b + Z.of_nat i). split; [lia|]. unfold at_index.
    replace (b + Z.of_nat i <? 0) with false by (symmetry; apply Z.ltb_ge; lia).
    now replace (Z.to_nat (b + Z.of_nat i)) with (Z.to_nat b + i)%nat by lia.
  - intros (j & Hj & Hx). unfold at_index in Hx.
    replace (j <? 0) with false in Hx by (symmetry; apply Z.ltb_ge; lia).
    exists (Z.to_nat (j - b)). apply lookup_take_Some. split; [|lia].
    rewrite lookup_drop.
    now replace (Z.to_nat b + Z.to_nat (j - b))%nat with (Z.to_nat j) by lia.
Qed.

Lemma pickFields_lookup columns row f :
  pickFields columns row !! f =
  if decide (f ∈ field <$> columns) then Some (property row f) else None.
Proof.
  unfold pickFields.
  assert (Hgen : forall acc : gmap string Value,
    foldl (fun result column => <[field column := property row (field column)]> result)
          acc columns !! f =
    if decide (f ∈ field <$> columns) then Some (property row f) else acc !! f).
  { induction columns as [|c cs IH]; intros acc; cbn [foldl];
      rewrite ?fmap_nil, ?fmap_cons.
    - destruct (decide (f ∈ [])) as [Hin|Hin]; [|reflexivity].
      now apply elem_of_nil in Hin.
    - rewrite IH.
      destruct (decide (f ∈ field <$> cs)) as [Hin|Hnin].
      + rewrite decide_True by (now apply list_elem_of_further). reflexivity.
      + destruct (decide (f = field c)) as [->|Hne].
        * rewrite lookup_insert_eq. now rewrite decide_True by apply list_elem_of_here.
        * rewrite lookup_insert_ne by congruence.
          rewrite decide_False; [reflexivity|].
          intros Hin. apply elem_of_cons in Hin as [?|?]; contradiction. }
  rewrite Hgen. case_decide; [reflexivity | apply lookup_empty].
Qed.

Lemma pickFields_dom columns row f :
  f ∈ dom (pickFields columns row) <-> f ∈ field <$> columns.
Proof.
  rewrite elem_of_dom, pickFields_lookup.
  destruct (decide (f ∈ field <$> columns)) as [Hin|Hin]; split; intros H;
    try assumption; try eauto.
  - now destruct H.
  - contradiction.
Qed.

(** C8: for a range whose bounds lie within the grid, [getSelectedData]
    returns one record per row from minRow to maxRow; the keys of each
    record are exactly the fields of the data columns minCol..maxCol (the
    row-header column, at index 0, is skipped), each key holding that
    row's value; rowCount = maxRow - minRow + 1 and columnCount =
    maxCol - minCol + 1; without a range argument the active range is
    used. *)
Theorem getSelectedData_selection t s g :
  insideGrid t g ->
  exists res,
    getSelectedData t s (Some g) = Some res /\
    Z.of_nat (length (data res)) = maxRow g - minRow g + 1 /\
    rowCount res = maxRow g - minRow g + 1 /\
    columnCount res = maxCol g - minCol g + 1 /\
    (forall i record,
       data res !! i = Some record ->
       exists rowData,
         at_index (rows t) (minRow g + Z.of_nat i) = Some rowData /\
         (forall f, f ∈ dom record <->
            exists j c, minCol g <= j <= maxCol g /\
                        at_index (columns t) (j + 1) = Some c /\ field c = f) /\
         (forall f, f ∈ dom record -> record !! f = Some (property rowData f))) /\
    (forall a, getActiveRange s = Some a ->
       getSelectedData t s None = getSelectedData t s (Some a)).
Proof.
  intros (Hrow & Hrows & Hcol & Hcols).
  unfold getSelectedData. cbn [mbind option_bind].
  set (cols := slice (columns t) (minCol g + 1) (Some (maxCol g + 2))).
  set (f := fun r => row ← at_index (rows t) r; Some (pickFields cols row)).
  assert (Hlen : Z.of_nat (length cols) = maxCol g - minCol g + 1).
  { subst cols. rewrite slice_inside_length; lia. }
  assert (Hsome : is_Some (mapM f (seqZ (minRow g) (maxRow g - minRow g + 1)))).
  { apply mapM_is_Some_2, Forall_forall. intros r Hr.
    apply list_elem_of_lookup in Hr as [i Hi].
    apply lookup_seqZ in Hi as [-> Hi]. subst f. cbn [compose].
    unfold at_index.
    replace (minRow g + Z.of_nat i <? 0) with false by (symmetry; apply Z.ltb_ge; lia).
    destruct (lookup_lt_is_Some_2 (rows t) (Z.to_nat (minRow g + Z.of_nat i))) as [x Hx];
      [lia|].
    rewrite Hx. cbn. eauto. }
  destruct Hsome as [rws Hrws]. rewrite Hrws.
  apply mapM_Some_1 in Hrws.
  eexists. split; [reflexivity|]. cbn [data rowCount columnCount].
  assert (Hn : Z.of_nat (length rws) = maxRow g - minRow g + 1).
  { rewrite <- (Forall2_length _ _ _ Hrws), length_seqZ. lia. }
  split; [exact Hn|]. split; [exact Hn|]. split; [exact Hlen|].
  split; [|intros a ->; reflexivity].
  intros i record Hi.
  destruct (Forall2_lookup_r _ _ _ _ _ Hrws Hi) as (r & Hr & Hf).
  apply lookup_seqZ in Hr as [-> _]. subst f. cbn beta in Hf.
  destruct (at_index (rows t) (minRow g + Z.of_nat i)) as [rowData|] eqn:Hrd;
    [|discriminate].
  cbn in Hf. injection Hf as <-.
  exists rowData. split; [reflexivity|]. split.
  - intros fld. rewrite pickFields_dom, list_elem_of_fmap. subst cols. split.
    + intros (c & -> & Hc). apply slice_inside_elem in Hc as (j & Hj & Hc); [|lia..].
      exists (j - 1), c. split; [lia|]. split; [|reflexivity].
      now replace (j - 1 + 1) with j by lia.
    + intros (j & c & Hj & Hc & <-). exists c. split; [reflexivity|].
      apply slice_inside_elem; [lia..|]. exists (j + 1). split; [lia | exact Hc].
  - intros fld Hfld. apply pickFields_dom in Hfld.
    rewrite pickFields_lookup. now rewrite decide_True.
Qed.

(** The 2-row, 2-column range (1,a)..(2,b) of [sampleTable]. *)
Lemma getSelectedData_selection_witness :
  exists res,
    getSelectedData sampleTable new_Spreadsheet
      (Some (setEnd 2 1 (setStart 1 0 (new_Range 0 0)))) = Some res /\
    Z.of_nat (length (data res)) = 2 /\
    rowCount res = 2 /\
    columnCount res = 2 /\
    (forall i record,
       data res !! i = Some record ->
       exists rowData,
         at_index (rows sampleTable) (1 + Z.of_nat i) = Some rowData /\
         (forall f, f ∈ dom record <->
            exists j c, 0 <= j <= 1 /\
                        at_index (columns sampleTable) (j + 1) = Some c /\ field c = f) /\
         (forall f, f ∈ dom record -> record !! f = Some (property rowData f))) /\
    (forall a, getActiveRange new_Spreadsheet = Some a ->
       getSelectedData sampleTable new_Spreadsheet None =
       getSelectedData sampleTable new_Spreadsheet (Some a)).
Proof.
  apply (getSelectedData_selection sampleTable new_Spreadsheet
           (setEnd 2 1 (setStart 1 0 (new_Range 0 0)))).
  unfold insideGrid. simpl. lia.
Defined.

(** The same selection made with the pointer and read back without a
    range argument: two records keyed by a and b. *)
Example getSelectedData_two_by_two :
  let s := run sampleTable new_Spreadsheet
             [CellMouseDown plain (cellAt 1 colA); CellMouseDown shift (cellAt 2 colB)] in
  getSelectedData sampleTable s None =
  Some {| data := [ <["a" := VNumber 1]> (<["b" := VNumber 11]> ∅);
                    <["a" := VNumber 2]> (<["b" := VNumber 12]> ∅) ];
          rowCount := 2;
          columnCount := 2 |}.
Proof. vm_compute. reflexivity. Qed.

(** * Further properties of the module *)

(** ** Range: how the calls compose *)

Lemma consistent_determined g g' :
  bounds_consistent g -> bounds_consistent g' ->
  start g = start g' -> end_ g = end_ g' -> g = g'.
Proof.
  destruct g as [s e a b c d], g' as [s' e' a' b' c' d'].
  unfold bounds_consistent. simpl.
  intros (-> & -> & -> & ->) (-> & -> & -> & ->) -> ->. reflexivity.
Qed.

(** X1: [setStart] and [setEnd] commute, a later call of either
    overrides an earlier one, and a Range built by the constructor and
    any calls is determined by its two anchors alone. *)
Theorem Range_setters_compose :
  (forall g r c r' c',
     setStart r c (setEnd r' c' g) = setEnd r' c' (setStart r c g) /\
     setEnd r c (setEnd r' c' g) = setEnd r c g /\
     setStart r c (setStart r' c' g) = setStart r c g) /\
  (forall r0 c0 ks r1 c1 ks',
     let g := runCalls (new_Range r0 c0) ks in
     let g' := runCalls (new_Range r1 c1) ks' in
     start g = start g' -> end_ g = end_ g' -> g = g').
Proof.
  split.
  - intros g r c r' c'. repeat split.
  - intros r0 c0 ks r1 c1 ks' g g' Hs He.
    apply consistent_determined; try assumption;
      apply runCalls_consistent, _updateMinMax_consistent.
Qed.

Lemma Range_setters_compose_witness :
  runCalls (new_Range 0 0) [CallSetStart 4 1; CallSetEnd 9 9; CallSetEnd 2 3]
  = runCalls (new_Range 7 7) [CallSetEnd 2 3; CallSetStart 4 1].
Proof.
  destruct Range_setters_compose as [_ H].
  apply (H 0 0 [CallSetStart 4 1; CallSetEnd 9 9; CallSetEnd 2 3]
           7 7 [CallSetEnd 2 3; CallSetStart 4 1]); reflexivity.
Defined.

(** X2: whatever calls were made, both anchors of a Range lie inside it,
    and [isInside] is the conjunction of [withinRow] and
    [withinColumn]. *)
Theorem Range_contains_its_anchors r0 c0 ks :
  let g := runCalls (new_Range r0 c0) ks in
  isInside g (row (start g)) (col (start g)) = true /\
  isInside g (row (end_ g)) (col (end_ g)) = true /\
  isStartingAt g (row (start g)) (col (start g)) = true /\
  (forall r c, isInside g r c = withinRow g r && withinColumn g c).
Proof.
  intros g.
  assert (Hg : bounds_consistent g)
    by (apply runCalls_consistent, _updateMinMax_consistent).
  split; [|split; [|split]].
  - apply isInside_rectangle; [exact Hg | lia].
  - apply isInside_rectangle; [exact Hg | lia].
  - unfold isStartingAt. now rewrite !Z.eqb_refl.
  - intros r c. unfold isInside, withinRow, withinColumn.
    rewrite !Z.geb_leb. symmetry. apply andb_assoc.
Qed.

(** X3: the rectangle does not depend on which corner is the start: a
    Range dragged from A to B and one dragged from B to A have the same
    bounds and contain the same cells. *)
Theorem Range_orientation_independent g g' ra ca rb cb :
  let ab := setEnd rb cb (setStart ra ca g) in
  let ba := setEnd ra ca (setStart rb cb g') in
  minRow ab = minRow ba /\ maxRow ab = maxRow ba /\
  minCol ab = minCol ba /\ maxCol ab = maxCol ba /\
  (forall r c, isInside ab r c = isInside ba r c) /\
  (forall r, withinRow ab r = withinRow ba r) /\
  (forall c, withinColumn ab c = withinColumn ba c).
Proof.
  intros ab ba. subst ab ba.
  unfold isInside, withinRow, withinColumn. simpl.
  rewrite (Z.min_comm ra rb), (Z.max_comm ra rb),
    (Z.min_comm ca cb), (Z.max_comm ca cb).
  repeat split.
Qed.

(** X4: a cell is at the top-left and at the bottom-right corner of a
    Range at once exactly when both anchors are that cell. *)
Theorem Range_single_cell r0 c0 ks r c :
  let g := runCalls (new_Range r0 c0) ks in
  atTopLeft g r c && atBottomRight g r c = true <->
  start g = {| row := r; col := c |} /\ end_ g = {| row := r; col := c |}.
Proof.
  intros g.
  assert (Hg : bounds_consistent g)
    by (apply runCalls_consistent, _updateMinMax_consistent).
  destruct Hg as (H1 & H2 & H3 & H4).
  unfold atTopLeft, atBottomRight. rewrite H1, H2, H3, H4.
  rewrite !andb_true_iff, !Z.eqb_eq.
  destruct (start g) as [sr sc], (end_ g) as [er ec]. simpl.
  split.
  - intros [[Ha Hb] [Hc Hd]].
    assert (sr = r) by lia. assert (er = r) by lia.
    assert (sc = c) by lia. assert (ec = c) by lia. split; congruence.
  - intros [Hs He]. injection Hs as -> ->. injection He as -> ->. lia.
Qed.

(** ** Pointer moves *)

Lemma setEnd_start_only r c a a2 :
  start a = start a2 -> setEnd r c a = setEnd r c a2.
Proof. intros H. unfold setEnd, _updateMinMax. simpl. now rewrite H. Qed.

Lemma endSelection_snoc_start t init a m el :
  exists a',
    endSelection t el {| ranges := init ++ [a]; selecting := m |} =
      (Some tt, {| ranges := init ++ [a']; selecting := m |}) /\
    start a' = start a.
Proof.
  destruct el as [c|cell].
  - rewrite endSelection_column_header. eexists. split; [reflexivity|].
    now destruct m.
  - rewrite endSelection_cell. eexists. split; [reflexivity|].
    destruct m; destruct (isRowHeaderField t (column cell)); reflexivity.
Qed.

Lemma onActiveRange_nil f m :
  onActiveRange f {| ranges := []; selecting := m |} =
  (None, {| ranges := []; selecting := m |}).
Proof. reflexivity. Qed.

Lemma endSelection_nil t el m :
  exec (endSelection t el) {| ranges := []; selecting := m |} =
  {| ranges := []; selecting := m |}.
Proof.
  destruct el as [c|cell]; unfold endSelection; handler_simpl.
  - destruct m; decide_mode; reflexivity.
  - destruct m; decide_mode; destruct (isRowHeaderField t (column cell));
      simpl; decide_mode; reflexivity.
Qed.

Lemma move_snoc t init a m e :
  isPointerMove e = true ->
  exists a',
    dispatch t e {| ranges := init ++ [a]; selecting := m |} =
      (Some tt, {| ranges := init ++ [a']; selecting := m |}) /\
    start a' = start a.
Proof.
  destruct e as [| c | | cell | |]; try discriminate; intros _; simpl.
  - unfold handleColumnMouseMove.
    destruct (isRowHeaderField t c); [now exists a|].
    handler_simpl. destruct (decide (m = Sfalse)); [now exists a|].
    apply endSelection_snoc_start.
  - unfold handleCellMouseMove. handler_simpl.
    destruct (decide (m = Sfalse)); [now exists a|].
    apply endSelection_snoc_start.
Qed.

Lemma move_nil t m e :
  isPointerMove e = true ->
  step t {| ranges := []; selecting := m |} e = {| ranges := []; selecting := m |}.
Proof.
  destruct e as [| c | | cell | |]; try discriminate; intros _;
    unfold step, dispatch.
  - unfold handleColumnMouseMove.
    destruct (isRowHeaderField t c); [reflexivity|].
    handler_simpl. destruct (decide (m = Sfalse)); [reflexivity|].
    apply endSelection_nil.
  - unfold handleCellMouseMove. handler_simpl.
    destruct (decide (m = Sfalse)); [reflexivity|].
    apply endSelection_nil.
Qed.

Lemma moves_snoc t moves : forall init a m,
  forallb isPointerMove moves = true ->
  exists a',
    run t {| ranges := init ++ [a]; selecting := m |} moves =
      {| ranges := init ++ [a']; selecting := m |} /\
    start a' = start a.
Proof.
  induction moves as [|e moves IH]; intros init a m Hall; simpl in *.
  - now exists a.
  - apply andb_true_iff in Hall as [He Hall].
    destruct (move_snoc t init a m e He) as (a1 & Hd & Hs1).
    unfold step, exec. rewrite Hd. cbn [snd].
    destruct (IH init a1 m Hall) as (a2 & Hrun & Hs2).
    exists a2. split; [exact Hrun | congruence].
Qed.

Lemma moves_nil t moves : forall m,
  forallb isPointerMove moves = true ->
  run t {| ranges := []; selecting := m |} moves = {| ranges := []; selecting := m |}.
Proof.
  induction moves as [|e moves IH]; intros m Hall; simpl in *; [reflexivity|].
  apply andb_true_iff in Hall as [He Hall].
  rewrite (move_nil t m e He). now apply IH.
Qed.

Lemma state_cases (s : Spreadsheet) :
  (exists m, s = {| ranges := []; selecting := m |}) \/
  (exists init a m, s = {| ranges := init ++ [a]; selecting := m |}).
Proof.
  destruct s as [rs m]. destruct rs as [|x l _] using rev_ind.
  - left. now exists m.
  - right. now exists l, x, m.
Qed.

(** X5: in the state a pointer move leaves, only the end anchor of the
    active range can differ from before: the number of ranges, every
    other range, the active range's start anchor and the mode are as
    they were. *)
Theorem pointer_move_changes_end_only t s a e :
  isPointerMove e = true ->
  getActiveRange s = Some a ->
  exists init a',
    ranges s = init ++ [a] /\
    step t s e = {| ranges := init ++ [a']; selecting := selecting s |} /\
    start a' = start a.
Proof.
  intros He Ha. destruct s as [rs m].
  destruct (getActiveRange_Some _ _ Ha) as [init Hr]. simpl in Hr. subst rs.
  destruct (move_snoc t init a m e He) as (a' & Hd & Hs).
  exists init, a'. split; [reflexivity|]. split; [|exact Hs].
  unfold step, exec. now rewrite Hd.
Qed.

Lemma pointer_move_changes_end_only_witness :
  exists init a',
    ranges (step sampleTable new_Spreadsheet (CellMouseDown plain (cellAt 1 colA)))
      = init ++ [setEnd 1 0 (setStart 1 0 (new_Range 0 0))] /\
    step sampleTable
      (step sampleTable new_Spreadsheet (CellMouseDown plain (cellAt 1 colA)))
      (CellMouseMove (cellAt 4 colC))
      = {| ranges := init ++ [a']; selecting := Scell |} /\
    start a' = {| row := 1; col := 0 |}.
Proof.
  apply (pointer_move_changes_end_only sampleTable
           (step sampleTable new_Spreadsheet (CellMouseDown plain (cellAt 1 colA)))
           (setEnd 1 0 (setStart 1 0 (new_Range 0 0)))
           (CellMouseMove (cellAt 4 colC)));
    reflexivity.
Defined.

(** X6: a drag has no memory of its path: after any pointer moves, a
    move over a cell leaves the state that this move alone would have
    left. *)
Theorem drag_is_path_independent t s moves cell :
  forallb isPointerMove moves = true ->
  run t s (moves ++ [CellMouseMove cell]) = step t s (CellMouseMove cell).
Proof.
  intros Hall. unfold run. rewrite foldl_app. fold (run t s moves). simpl.
  destruct (state_cases s) as [[m ->] | (init & a & m & ->)].
  - now rewrite moves_nil.
  - destruct (decide (m = Sfalse)) as [->|Hm].
    + (* idle: every move is ignored *)
      assert (Hidle : forall ms, forallb isPointerMove ms = true ->
                run t {| ranges := init ++ [a]; selecting := Sfalse |} ms
                = {| ranges := init ++ [a]; selecting := Sfalse |}).
      { induction ms as [|e ms IH]; intros Hms; simpl in *; [reflexivity|].
        apply andb_true_iff in Hms as [He Hms].
        assert (Hstep : step t {| ranges := init ++ [a]; selecting := Sfalse |} e
                        = {| ranges := init ++ [a]; selecting := Sfalse |}).
        { destruct e as [| c | | cl | |]; try discriminate; unfold step, dispatch.
          - unfold handleColumnMouseMove. now destruct (isRowHeaderField t c).
          - reflexivity. }
        rewrite Hstep. now apply IH. }
      now rewrite Hidle.
    + destruct (moves_snoc t moves init a m Hall) as (a' & -> & Hs).
      unfold step, dispatch, handleCellMouseMove. handler_simpl.
      destruct (decide (m = Sfalse)); [contradiction|].
      rewrite !endSelection_cell. cbn [snd]. do 3 f_equal.
      destruct m; destruct (isRowHeaderField t (column cell));
        now apply setEnd_start_only.
Qed.

Lemma drag_is_path_independent_witness :
  run sampleTable
    (step sampleTable new_Spreadsheet (CellMouseDown plain (cellAt 1 colA)))
    ([CellMouseMove (cellAt 5 colC); ColumnMouseMove colB; CellMouseMove (cellAt 0 rowHeader)]
       ++ [CellMouseMove (cellAt 3 colB)])
  = step sampleTable
      (step sampleTable new_Spreadsheet (CellMouseDown plain (cellAt 1 colA)))
      (CellMouseMove (cellAt 3 colB)).
Proof.
  apply (drag_is_path_independent sampleTable
           (step sampleTable new_Spreadsheet (CellMouseDown plain (cellAt 1 colA)))
           [CellMouseMove (cellAt 5 colC); ColumnMouseMove colB;
            CellMouseMove (cellAt 0 rowHeader)]
           (cellAt 3 colB)).
  reflexivity.
Defined.

(** X7: without a drag in progress ([selecting] is [false]) pointer
    moves over cells and column headers leave the state untouched, and a
    move over the corner header is ignored in every mode. *)
Theorem moves_ignored_when_idle t s :
  (selecting s = Sfalse ->
   forall e, isPointerMove e = true -> dispatch t e s = (Some tt, s)) /\
  (forall corner, isRowHeaderField t corner = true ->
   dispatch t (ColumnMouseMove corner) s = (Some tt, s)).
Proof.
  split.
  - intros Hm e He. destruct s as [rs m]. simpl in Hm. subst m.
    destruct e as [| c | | cell | |]; try discriminate; simpl.
    + unfold handleColumnMouseMove. now destruct (isRowHeaderField t c).
    + reflexivity.
  - intros corner Hc. simpl. unfold handleColumnMouseMove. now rewrite Hc.
Qed.

Lemma moves_ignored_when_idle_witness :
  dispatch sampleTable (CellMouseMove (cellAt 4 colC)) new_Spreadsheet
    = (Some tt, new_Spreadsheet) /\
  dispatch sampleTable (ColumnMouseMove rowHeader)
    (step sampleTable new_Spreadsheet (ColumnMouseDown plain colB))
    = (Some tt, step sampleTable new_Spreadsheet (ColumnMouseDown plain colB)).
Proof.
  split.
  - destruct (moves_ignored_when_idle sampleTable new_Spreadsheet) as [H _].
    apply H; reflexivity.
  - destruct (moves_ignored_when_idle sampleTable
                (step sampleTable new_Spreadsheet (ColumnMouseDown plain colB)))
      as [_ H].
    apply H. reflexivity.
Defined.

(** ** Properties kept by every handler *)

Section Preservation.

Variable P : Spreadsheet -> Prop.

Lemma preserves_bind {A B} (m : Handler A) (k : A -> Handler B) :
  preserves P m -> (forall a, preserves P (k a)) -> preserves P (m ≫= k).
Proof.
  intros Hm Hk s Hs. rewrite exec_bind.
  destruct (fst (m s)); [apply Hk|]; now apply Hm.
Qed.

Lemma preserves_hret {A} (a : A) : preserves P (hret a).
Proof. now intros s Hs. Qed.

Lemma preserves_throw {A} : preserves P (@throw A).
Proof. now intros s Hs. Qed.

Lemma preserves_defined {A} (o : option A) : preserves P (defined o).
Proof. destruct o; [apply preserves_hret | apply preserves_throw]. Qed.

Lemma preserves_read {A} (f : Spreadsheet -> A) : preserves P (read f).
Proof. now intros s Hs. Qed.

Lemma preserves_if {A} (b : bool) (m1 m2 : Handler A) :
  preserves P m1 -> preserves P m2 -> preserves P (if b then m1 else m2).
Proof. now destruct b. Qed.

Lemma preserves_decide {A} (Q : Prop) `{Decision Q} (m1 m2 : Handler A) :
  preserves P m1 -> preserves P m2 -> preserves P (if decide Q then m1 else m2).
Proof. now destruct (decide Q). Qed.

(** Once the active-range calls keep [P], so do [beginSelection] and
    [endSelection]. *)
Hypothesis onActive : forall f,
  (exists r c, f = setStart r c) \/ (exists r c, f = setEnd r c) ->
  preserves P (onActiveRange f).

Lemma preserves_beginSelection t el : preserves P (beginSelection t el).
Proof.
  destruct el as [c|cell]; unfold beginSelection.
  - apply onActive. left. eauto.
  - apply preserves_if; apply onActive; left; eauto.
Qed.

Lemma preserves_endSelection t el : preserves P (endSelection t el).
Proof.
  destruct el as [c|cell]; unfold endSelection;
    apply preserves_bind; try apply preserves_read; intros sel;
    repeat (apply preserves_decide || apply preserves_if);
    try apply preserves_hret; apply onActive; right; eauto.
Qed.

End Preservation.

Lemma onActiveRange_selecting m f :
  preserves (fun s => selecting s = m) (onActiveRange f).
Proof.
  intros s Hs. destruct (onActiveRange_length f s) as [_ H]. congruence.
Qed.

Lemma exec_set_selecting_then {A} (m : Selecting) (k : Handler A) s :
  preserves (fun s => selecting s = m) k ->
  selecting (exec (set_selecting m ;; k) s) = m.
Proof.
  intros Hk. rewrite exec_bind. simpl. now apply Hk.
Qed.

(** ** Pointer-down *)

Lemma set_ranges_selecting m l :
  preserves (fun s => selecting s = m) (set_ranges l).
Proof. now intros s Hs. Qed.

Ltac keep_selecting :=
  repeat first
    [ apply onActiveRange_selecting
    | apply preserves_beginSelection; intros
    | apply preserves_endSelection; intros
    | apply set_ranges_selecting
    | apply preserves_read
    | apply preserves_hret
    | apply preserves_defined
    | apply preserves_bind; [|intros ?]
    | apply preserves_if
    | apply preserves_decide ].

Lemma select_tail_selecting t event el m :
  preserves (fun s => selecting s = m)
    (if shiftKey event then
       rs ← read ranges;
       (if (1 <? Z.of_nat (length rs))
        then set_ranges (slice rs (-1) None)
        else hret tt) ;;
       endSelection t el
     else if ctrlKey event then
       rs ← read ranges;
       set_ranges (rs ++ [new_Range 0 0]) ;;
       beginSelection t el ;;
       endSelection t el
     else
       set_ranges [new_Range 0 0] ;;
       beginSelection t el ;;
       endSelection t el).
Proof. keep_selecting. Qed.

(** X8: every pointer-down starts a drag, whatever the modifiers and
    whether or not the handler throws: the mode becomes [all] on the
    corner header, [column] on another column header, [row] on a
    row-header cell and [cell] on any other cell; it is never left at
    [false]. *)
Theorem pointer_down_sets_mode t s event :
  (forall cell,
     selecting (step t s (CellMouseDown event cell)) = modeOfCell t cell) /\
  (forall c,
     selecting (step t s (ColumnMouseDown event c)) = modeOfColumn t c) /\
  (forall e, isPointerDown e = true -> selecting (step t s e) <> Sfalse).
Proof.
  assert (Hcell : forall ev cell,
            selecting (step t s (CellMouseDown ev cell)) = modeOfCell t cell).
  { intros ev cell. unfold step, dispatch, handleCellMouseDown, _select, modeOfCell.
    destruct (isRowHeaderField t (column cell));
      apply exec_set_selecting_then, select_tail_selecting. }
  assert (Hcol : forall ev c,
            selecting (step t s (ColumnMouseDown ev c)) = modeOfColumn t c).
  { intros ev c. unfold step, dispatch, handleColumnMouseDown, modeOfColumn.
    destruct (isRowHeaderField t c).
    - rewrite exec_bind. cbn [fst set_ranges].
      apply exec_set_selecting_then. keep_selecting.
    - unfold _select. apply exec_set_selecting_then, select_tail_selecting. }
  split; [apply Hcell|]. split; [apply Hcol|].
  intros e He. destruct e as [ev c| | ev cell | | |]; try discriminate.
  - rewrite Hcol. unfold modeOfColumn. now destruct (isRowHeaderField t c).
  - rewrite Hcell. unfold modeOfCell. now destruct (isRowHeaderField t (column cell)).
Qed.

Lemma pointer_down_sets_mode_witness :
  selecting (step sampleTable new_Spreadsheet (CellMouseDown ctrl (cellAt 2 rowHeader)))
  <> Sfalse.
Proof.
  destruct (pointer_down_sets_mode sampleTable new_Spreadsheet ctrl) as (_ & _ & H).
  apply (H (CellMouseDown ctrl (cellAt 2 rowHeader))). reflexivity.
Defined.

Lemma plain_click_cell t s cell :
  isRowHeaderField t (column cell) = false ->
  dispatch t (CellMouseDown plain cell) s =
  (Some tt,
   {| ranges := [singleCell (position cell - 1) (findColumnIndex t (column cell) - 1)];
      selecting := Scell |}).
Proof.
  intros Hc. unfold dispatch, handleCellMouseDown, _select. rewrite Hc.
  handler_simpl.
  pose proof (beginSelection_snoc t [] (new_Range 0 0) Scell (CellComponent cell)) as Hb.
  cbn [app] in Hb. rewrite Hb, Hc. clear Hb.
  pose proof (endSelection_cell t []
                (setStart (position cell - 1) (findColumnIndex t (column cell) - 1)
                   (new_Range 0 0)) Scell cell) as He.
  cbn [app] in He. now rewrite He, Hc.
Qed.

Lemma ctrl_click_cell t s cell :
  isRowHeaderField t (column cell) = false ->
  dispatch t (CellMouseDown ctrl cell) s =
  (Some tt,
   {| ranges := ranges s ++
                [singleCell (position cell - 1) (findColumnIndex t (column cell) - 1)];
      selecting := Scell |}).
Proof.
  intros Hc. unfold dispatch, handleCellMouseDown, _select. rewrite Hc.
  handler_simpl.
  rewrite (beginSelection_snoc t (ranges s) (new_Range 0 0) Scell (CellComponent cell)), Hc.
  now rewrite endSelection_cell, Hc.
Qed.

Lemma isInside_singleCell r c x y :
  isInside (singleCell r c) x y = true <-> x = r /\ y = c.
Proof.
  unfold singleCell, isInside. simpl.
  rewrite !Z.min_id, !Z.max_id, !andb_true_iff, !Z.leb_le. lia.
Qed.

Lemma corners_singleCell r c x y :
  atTopLeft (singleCell r c) x y && atBottomRight (singleCell r c) x y = true
  <-> x = r /\ y = c.
Proof.
  unfold singleCell, atTopLeft, atBottomRight. simpl.
  rewrite !Z.min_id, !Z.max_id, !andb_true_iff, !Z.eqb_eq. lia.
Qed.

(** X9: a plain pointer-down on an ordinary cell B discards whatever was
    selected: from any state the handler completes with exactly one
    range, both anchors at B, in [cell] mode; B is then the one cell that
    [layoutCell] marks as selected and as solely selected. *)
Theorem plain_click_selects_one_cell t s cell :
  isRowHeaderField t (column cell) = false ->
  let r := position cell - 1 in
  let c := findColumnIndex t (column cell) - 1 in
  let s' := step t s (CellMouseDown plain cell) in
  fst (dispatch t (CellMouseDown plain cell) s) = Some tt /\
  ranges s' = [singleCell r c] /\
  start (singleCell r c) = {| row := r; col := c |} /\
  end_ (singleCell r c) = {| row := r; col := c |} /\
  selecting s' = Scell /\
  (forall x y, cellSelected s' x y = true <-> x = r /\ y = c) /\
  (forall x y, onlyCellSelected s' x y = true <-> x = r /\ y = c).
Proof.
  intros Hc r c s'. subst s'. unfold step, exec.
  rewrite (plain_click_cell t s cell Hc). cbn [fst snd ranges selecting].
  fold r c. repeat split; try reflexivity.
  - unfold cellSelected in H. cbn [ranges existsb] in H.
    rewrite orb_false_r in H. now apply isInside_singleCell in H.
  - unfold cellSelected in H. cbn [ranges existsb] in H.
    rewrite orb_false_r in H. now apply isInside_singleCell in H.
  - intros [-> ->]. unfold cellSelected. cbn [ranges existsb].
    rewrite orb_false_r. now apply isInside_singleCell.
  - unfold onlyCellSelected in H. cbn [ranges length] in H. simpl in H.
    now apply corners_singleCell in H.
  - unfold onlyCellSelected in H. cbn [ranges length] in H. simpl in H.
    now apply corners_singleCell in H.
  - intros [-> ->]. unfold onlyCellSelected. cbn [ranges length]. simpl.
    now apply corners_singleCell.
Qed.

Lemma plain_click_selects_one_cell_witness :
  let s := run sampleTable new_Spreadsheet
             [CellMouseDown plain (cellAt 1 colA); CellMouseDown ctrl (cellAt 4 colC)] in
  let s' := step sampleTable s (CellMouseDown plain (cellAt 2 colB)) in
  fst (dispatch sampleTable (CellMouseDown plain (cellAt 2 colB)) s) = Some tt /\
  ranges s' = [singleCell 2 1] /\
  start (singleCell 2 1) = {| row := 2; col := 1 |} /\
  end_ (singleCell 2 1) = {| row := 2; col := 1 |} /\
  selecting s' = Scell /\
  (forall x y, cellSelected s' x y = true <-> x = 2 /\ y = 1) /\
  (forall x y, onlyCellSelected s' x y = true <-> x = 2 /\ y = 1).
Proof.
  apply (plain_click_selects_one_cell sampleTable
           (run sampleTable new_Spreadsheet
              [CellMouseDown plain (cellAt 1 colA); CellMouseDown ctrl (cellAt 4 colC)])
           (cellAt 2 colB)).
  reflexivity.
Defined.

(** X10: a ctrl pointer-down on an ordinary cell B appends the one-cell
    range B and touches nothing else: every cell selected before stays
    selected, B becomes selected, and with another range already present
    no cell is marked solely selected.  A plain click on A followed by a
    ctrl click on B leaves the two one-cell ranges A and B, B active. *)
Theorem ctrl_click_adds_range t s cell :
  isRowHeaderField t (column cell) = false ->
  let r := position cell - 1 in
  let c := findColumnIndex t (column cell) - 1 in
  let s' := step t s (CellMouseDown ctrl cell) in
  fst (dispatch t (CellMouseDown ctrl cell) s) = Some tt /\
  ranges s' = ranges s ++ [singleCell r c] /\
  getActiveRange s' = Some (singleCell r c) /\
  (forall x y, cellSelected s' x y = cellSelected s x y || ((x =? r) && (y =? c))) /\
  (ranges s <> [] -> forall x y, onlyCellSelected s' x y = false) /\
  (forall cellA,
     isRowHeaderField t (column cellA) = false ->
     ranges (run t s [CellMouseDown plain cellA; CellMouseDown ctrl cell]) =
     [singleCell (position cellA - 1) (findColumnIndex t (column cellA) - 1);
      singleCell r c]).
Proof.
  intros Hc r c s'. subst s'. unfold step, exec.
  rewrite (ctrl_click_cell t s cell Hc). cbn [fst snd ranges selecting]. fold r c.
  split; [reflexivity|]. split; [reflexivity|].
  split; [apply getActiveRange_snoc|]. split; [|split].
  - intros x y. unfold cellSelected. cbn [ranges].
    rewrite existsb_app. cbn [existsb]. rewrite orb_false_r. f_equal.
    apply eq_true_iff_eq. rewrite isInside_singleCell, andb_true_iff, !Z.eqb_eq.
    reflexivity.
  - intros Hne x y. unfold onlyCellSelected. cbn [ranges].
    destruct (Z.of_nat (length (ranges s ++ [singleCell r c])) =? 1) eqn:Hlen;
      [|reflexivity].
    apply Z.eqb_eq in Hlen. rewrite length_app in Hlen.
    destruct (ranges s) as [|g l]; [congruence|]. simpl in Hlen. lia.
  - intros cellA HA. unfold run. simpl. unfold step, exec.
    rewrite (plain_click_cell t s cellA HA). cbn [snd].
    rewrite (ctrl_click_cell t _ cell Hc). reflexivity.
Qed.

Lemma ctrl_click_adds_range_witness :
  let s := step sampleTable new_Spreadsheet (CellMouseDown plain (cellAt 1 colA)) in
  let s' := step sampleTable s (CellMouseDown ctrl (cellAt 4 colC)) in
  ranges s' = [singleCell 1 0; singleCell 4 2] /\
  getActiveRange s' = Some (singleCell 4 2).
Proof.
  destruct (ctrl_click_adds_range sampleTable
              (step sampleTable new_Spreadsheet (CellMouseDown plain (cellAt 1 colA)))
              (cellAt 4 colC) eq_refl) as (_ & Hr & Ha & _).
  split; [exact Hr | exact Ha].
Defined.

Lemma collapse_to_active (init : list Range) (a : Range) :
  (if 1 <? Z.of_nat (length (init ++ [a]))
   then slice (init ++ [a]) (-1) None
   else init ++ [a]) = [a].
Proof.
  destruct (1 <? Z.of_nat (length (init ++ [a]))) eqn:Hlen.
  - apply slice_last.
  - apply Z.ltb_ge in Hlen. rewrite length_app in Hlen. simpl in Hlen.
    destruct init as [|x init]; [reflexivity | simpl in Hlen; lia].
Qed.

Lemma shift_tail_snoc t el init a m :
  exists a',
    (rs ← read ranges;
     (if (1 <? Z.of_nat (length rs))
      then set_ranges (slice rs (-1) None)
      else hret tt) ;;
     endSelection t el) {| ranges := init ++ [a]; selecting := m |}
    = (Some tt, {| ranges := [a']; selecting := m |}) /\
    start a' = start a.
Proof.
  destruct (endSelection_snoc_start t [] a m el) as (a' & He & Hs).
  cbn [app] in He. exists a'. split; [|exact Hs].
  handler_simpl. pose proof (collapse_to_active init a) as Hone.
  destruct (1 <? Z.of_nat (length (init ++ [a])));
    cbn [fst snd ranges selecting]; rewrite Hone; exact He.
Qed.

Lemma bind_set_selecting {A} (m : Selecting) (k : Handler A) s :
  (set_selecting m ;; k) s = k {| ranges := ranges s; selecting := m |}.
Proof. reflexivity. Qed.

(** X11: a shift pointer-down on any target other than the corner
    header (ordinary cell, row-header cell or column header) leaves a
    state with exactly one range and does not move its start anchor: the
    former active range is kept, every other range is dropped, and only
    the end anchor is rewritten. *)
Theorem shift_keeps_start_anchor t s a event e :
  shiftKey event = true ->
  getActiveRange s = Some a ->
  (exists cell, e = CellMouseDown event cell) \/
  (exists c, e = ColumnMouseDown event c /\ isRowHeaderField t c = false) ->
  exists a',
    ranges (step t s e) = [a'] /\
    start a' = start a.
Proof.
  intros Hshift Ha He. destruct s as [rs m].
  destruct (getActiveRange_Some _ _ Ha) as [init Hr]. simpl in Hr. subst rs.
  destruct He as [[cell ->] | (c & -> & Hc)];
    unfold step, exec, dispatch, handleCellMouseDown, handleColumnMouseDown;
    rewrite ?Hc; unfold _select; rewrite Hshift.
  - destruct (isRowHeaderField t (column cell)); rewrite bind_set_selecting;
      cbn [ranges].
    + destruct (shift_tail_snoc t (CellComponent cell) init a Srow) as (a' & Ht & Hs).
      exists a'. rewrite Ht. now repeat split.
    + destruct (shift_tail_snoc t (CellComponent cell) init a Scell) as (a' & Ht & Hs).
      exists a'. rewrite Ht. now repeat split.
  - rewrite bind_set_selecting. cbn [ranges].
    destruct (shift_tail_snoc t (ColumnComponent c) init a Scolumn) as (a' & Ht & Hs).
    exists a'. rewrite Ht. now repeat split.
Qed.

Lemma shift_keeps_start_anchor_witness :
  exists a',
    ranges (step sampleTable
              (run sampleTable new_Spreadsheet
                 [CellMouseDown plain (cellAt 1 colA); CellMouseDown ctrl (cellAt 4 colB)])
              (ColumnMouseDown shift colC)) = [a'] /\
    start a' = {| row := 4; col := 1 |}.
Proof.
  apply (shift_keeps_start_anchor sampleTable
           (run sampleTable new_Spreadsheet
              [CellMouseDown plain (cellAt 1 colA); CellMouseDown ctrl (cellAt 4 colB)])
           (singleCell 4 1) shift (ColumnMouseDown shift colC)).
  - reflexivity.
  - reflexivity.
  - right. exists colC. split; reflexivity.
Defined.

(** ** Whole-row and whole-column status by mode *)

(** X12: a row is reported fully selected only in [all] or [row] mode
    and a column only in [all] or [column] mode; in particular a
    rectangle dragged in [cell] mode never counts, however wide or tall
    it is. *)
Theorem full_status_needs_mode t s :
  (forall r, selectingAllColumnsOfRow t s r = true ->
             selecting s = Sall \/ selecting s = Srow) /\
  (forall c, selectingAllRowsOfColumn t s c = true ->
             selecting s = Sall \/ selecting s = Scolumn) /\
  (selecting s = Scell ->
   (forall r, selectingAllColumnsOfRow t s r = false) /\
   (forall c, selectingAllRowsOfColumn t s c = false)).
Proof.
  assert (Hrow : forall r, selectingAllColumnsOfRow t s r = true ->
                           selecting s = Sall \/ selecting s = Srow).
  { intros r. unfold selectingAllColumnsOfRow.
    destruct (decide (selecting s = Sall)); [now left|].
    intros H. apply existsb_exists in H as (g & _ & Hg).
    rewrite !andb_true_iff in Hg. destruct Hg as [[[Hm _] _] _].
    apply bool_decide_eq_true in Hm. now right. }
  assert (Hcol : forall c, selectingAllRowsOfColumn t s c = true ->
                           selecting s = Sall \/ selecting s = Scolumn).
  { intros c. unfold selectingAllRowsOfColumn.
    destruct (decide (selecting s = Sall)); [now left|].
    intros H. apply existsb_exists in H as (g & _ & Hg).
    rewrite !andb_true_iff in Hg. destruct Hg as [[[Hm _] _] _].
    apply bool_decide_eq_true in Hm. now right. }
  split; [exact Hrow|]. split; [exact Hcol|].
  intros Hm. split; intros x.
  - destruct (selectingAllColumnsOfRow t s x) eqn:E; [|reflexivity].
    destruct (Hrow x E); congruence.
  - destruct (selectingAllRowsOfColumn t s x) eqn:E; [|reflexivity].
    destruct (Hcol x E); congruence.
Qed.

(** A cell drag over the whole of [sampleTable]. *)
Lemma full_status_needs_mode_witness :
  let s := run sampleTable new_Spreadsheet
             [CellMouseDown plain (cellAt 0 colA); CellMouseMove (cellAt 5 colC)] in
  (forall r, selectingAllColumnsOfRow sampleTable s r = false) /\
  (forall c, selectingAllRowsOfColumn sampleTable s c = false).
Proof.
  destruct (full_status_needs_mode sampleTable
              (run sampleTable new_Spreadsheet
                 [CellMouseDown plain (cellAt 0 colA); CellMouseMove (cellAt 5 colC)]))
    as (_ & _ & H).
  apply H. reflexivity.
Defined.

(** ** Drag from a column header *)

Lemma mouseDown_column_header t s0 hdr :
  isRowHeaderField t hdr = false ->
  step t s0 (ColumnMouseDown plain hdr) =
  {| ranges := [setEnd (rowsPerPage t - 1) (findColumnIndex t hdr - 1)
                  (setStart 0 (findColumnIndex t hdr - 1) (new_Range 0 0))];
     selecting := Scolumn |}.
Proof.
  intros Hh. unfold step, exec, dispatch, handleColumnMouseDown, _select.
  rewrite Hh. handler_simpl.
  pose proof (beginSelection_snoc t [] (new_Range 0 0) Scolumn (ColumnComponent hdr)) as Hb.
  cbn [app] in Hb. rewrite Hb. clear Hb.
  pose proof (endSelection_column_header t []
                (setStart 0 (findColumnIndex t hdr - 1) (new_Range 0 0)) Scolumn hdr) as He.
  cbn [app] in He. now rewrite He.
Qed.

Lemma move_over_column_mode t g target :
  isRowHeaderField t (componentColumn target) = false ->
  step t {| ranges := [g]; selecting := Scolumn |} (moveOver target) =
  {| ranges := [setEnd (rowsPerPage t - 1) (targetColumn t target) g];
     selecting := Scolumn |}.
Proof.
  intros Hh. destruct target as [c|cell]; simpl in Hh; unfold step, exec, moveOver, dispatch.
  - unfold handleColumnMouseMove. rewrite Hh. handler_simpl. decide_mode.
    pose proof (endSelection_column_header t [] g Scolumn c) as He.
    cbn [app] in He. now rewrite He.
  - unfold handleCellMouseMove. handler_simpl. decide_mode.
    pose proof (endSelection_cell t [] g Scolumn cell) as He.
    cbn [app] in He. now rewrite He, Hh.
Qed.

Lemma selectingAllRowsOfColumn_column_mode t g c :
  row (start g) = 0 ->
  row (end_ g) = rowsPerPage t - 1 ->
  selectingAllRowsOfColumn t {| ranges := [g]; selecting := Scolumn |} c
    = withinColumn g c.
Proof.
  intros Hs He. unfold selectingAllRowsOfColumn.
  cbn [ranges selecting existsb]. decide_mode.
  now rewrite Hs, He, !Z.eqb_refl, orb_false_r.
Qed.

(** X13: a plain pointer-down on the header of column c0 followed by
    pointer moves that end over a column header or an ordinary cell of
    column c1 leaves one range from (0, c0) to (rowsPerPage - 1, c1) in
    [column] mode; the column-fully-selected predicate then holds exactly
    for the columns between c0 and c1, and no row is reported fully
    selected. *)
Theorem column_header_drag_selects_columns t s0 hdr moves target :
  isRowHeaderField t hdr = false ->
  forallb isPointerMove moves = true ->
  isRowHeaderField t (componentColumn target) = false ->
  let c0 := findColumnIndex t hdr - 1 in
  let c1 := targetColumn t target in
  let s := run t s0 (ColumnMouseDown plain hdr :: moves ++ [moveOver target]) in
  exists g,
    ranges s = [g] /\
    selecting s = Scolumn /\
    start g = {| row := 0; col := c0 |} /\
    end_ g = {| row := rowsPerPage t - 1; col := c1 |} /\
    (forall c, selectingAllRowsOfColumn t s c = true <->
               Z.min c0 c1 <= c <= Z.max c0 c1) /\
    (forall r, selectingAllColumnsOfRow t s r = false).
Proof.
  intros Hh Hmoves Htarget c0 c1 s. subst s.
  unfold run. simpl. fold (run t). rewrite foldl_app. simpl.
  rewrite (mouseDown_column_header _ _ _ Hh). fold c0.
  destruct (moves_snoc t moves [] (setEnd (rowsPerPage t - 1) c0 (setStart 0 c0 (new_Range 0 0)))
              Scolumn Hmoves) as (g1 & Hrun & Hs1).
  cbn [app] in Hrun. unfold run in Hrun. rewrite Hrun. simpl in Hs1.
  rewrite (move_over_column_mode t g1 target Htarget). fold c1.
  eexists. split; [reflexivity|]. split; [reflexivity|].
  split; [exact Hs1|]. split; [reflexivity|]. split.
  - intros c. rewrite selectingAllRowsOfColumn_column_mode.
    + set (g := setEnd (rowsPerPage t - 1) c1 g1).
      assert (Hmin : minCol g = Z.min c0 c1) by (subst g; simpl; now rewrite Hs1).
      assert (Hmax : maxCol g = Z.max c0 c1) by (subst g; simpl; now rewrite Hs1).
      unfold withinColumn.
      rewrite Hmin, Hmax, andb_true_iff, Z.geb_le, Z.leb_le. reflexivity.
    + simpl. now rewrite Hs1.
    + reflexivity.
  - intros r. unfold selectingAllColumnsOfRow. cbn [ranges selecting existsb].
    decide_mode. reflexivity.
Qed.

Lemma column_header_drag_selects_columns_witness :
  let s := run sampleTable new_Spreadsheet
             (ColumnMouseDown plain colC
                :: [CellMouseMove (cellAt 2 colA)] ++ [moveOver (ColumnComponent colB)]) in
  exists g,
    ranges s = [g] /\
    selecting s = Scolumn /\
    start g = {| row := 0; col := 2 |} /\
    end_ g = {| row := 5; col := 1 |} /\
    (forall c, selectingAllRowsOfColumn sampleTable s c = true <-> 1 <= c <= 2) /\
    (forall r, selectingAllColumnsOfRow sampleTable s r = false).
Proof.
  apply (column_header_drag_selects_columns sampleTable new_Spreadsheet colC
           [CellMouseMove (cellAt 2 colA)] (ColumnComponent colB));
    reflexivity.
Defined.

(** ** Every reachable Range is normalised *)

Lemma preserves_read_bind {A B} (P : Spreadsheet -> Prop)
  (f : Spreadsheet -> A) (k : A -> Handler B) :
  (forall s, P s -> P (exec (k (f s)) s)) -> preserves P (read f ≫= k).
Proof. intros H s Hs. rewrite exec_bind. simpl. now apply H. Qed.

Lemma consistent_onActive f :
  (exists r c, f = setStart r c) \/ (exists r c, f = setEnd r c) ->
  preserves allConsistent (onActiveRange f).
Proof.
  intros Hf s Hs. unfold exec, onActiveRange, allConsistent in *.
  destruct (getActiveRange s) as [a|]; [|exact Hs]. simpl.
  apply Forall_alter; [exact Hs|]. intros x _ _.
  destruct Hf as [(r & c & ->) | (r & c & ->)]; apply _updateMinMax_consistent.
Qed.

Lemma consistent_set_selecting m : preserves allConsistent (set_selecting m).
Proof. now intros s Hs. Qed.

Lemma consistent_set_ranges l :
  Forall bounds_consistent l -> preserves allConsistent (set_ranges l).
Proof. now intros Hl s Hs. Qed.

Lemma consistent_new_Range : Forall bounds_consistent [new_Range 0 0].
Proof. repeat constructor. Qed.

Lemma consistent_slice (l : list Range) b e :
  Forall bounds_consistent l -> Forall bounds_consistent (slice l b e).
Proof. intros H. unfold slice. now apply Forall_take, Forall_drop. Qed.

Lemma consistent_select t event el : preserves allConsistent (_select t event el).
Proof.
  unfold _select. apply preserves_bind.
  - destruct el; [|apply preserves_if]; apply consistent_set_selecting.
  - intros _. repeat apply preserves_if.
    + apply preserves_read_bind. intros s Hs.
      apply preserves_bind; [|intros; apply preserves_endSelection, consistent_onActive|exact Hs].
      apply preserves_if; [|apply preserves_hret].
      now apply consistent_set_ranges, consistent_slice.
    + apply preserves_read_bind. intros s Hs.
      apply preserves_bind; [|intros; apply preserves_bind|exact Hs].
      * apply consistent_set_ranges, Forall_app. split; [exact Hs|apply consistent_new_Range].
      * apply preserves_beginSelection, consistent_onActive.
      * intros; apply preserves_endSelection, consistent_onActive.
    + apply preserves_bind; [apply consistent_set_ranges, consistent_new_Range|].
      intros; apply preserves_bind;
        [apply preserves_beginSelection | intros; apply preserves_endSelection];
        apply consistent_onActive.
Qed.

Lemma consistent_dispatch t e : preserves allConsistent (dispatch t e).
Proof.
  destruct e as [event c | c | event cell | cell | |]; simpl.
  - unfold handleColumnMouseDown. apply preserves_if; [|apply consistent_select].
    apply preserves_bind; [apply consistent_set_ranges, consistent_new_Range|].
    intros _. apply preserves_bind; [apply consistent_set_selecting|].
    intros _. apply preserves_bind; [apply preserves_defined|]. intros cells.
    apply preserves_bind; [apply preserves_defined|]. intros lastColumn.
    apply preserves_bind; [apply preserves_defined|]. intros c1.
    apply preserves_bind; [apply preserves_beginSelection, consistent_onActive|].
    intros _. apply preserves_bind; [apply preserves_defined|]. intros c2.
    apply preserves_endSelection, consistent_onActive.
  - unfold handleColumnMouseMove. apply preserves_if; [apply preserves_hret|].
    apply preserves_bind; [apply preserves_read|]. intros sel.
    apply preserves_decide; [apply preserves_hret|].
    apply preserves_endSelection, consistent_onActive.
  - apply consistent_select.
  - unfold handleCellMouseMove.
    apply preserves_bind; [apply preserves_read|]. intros sel.
    apply preserves_decide; [apply preserves_hret|].
    apply preserves_endSelection, consistent_onActive.
  - apply consistent_set_selecting.
  - apply consistent_set_ranges, consistent_new_Range.
Qed.

Lemma consistent_run t es : forall s, allConsistent s -> allConsistent (run t s es).
Proof.
  induction es as [|e es IH]; intros s Hs; simpl; [exact Hs|].
  apply IH. now apply consistent_dispatch.
Qed.

(** X14: in every state the module can reach, from the constructor on
    and through handlers that throw, each Range of [ranges] has bounds
    that agree with its anchors: min <= max on both axes, and the cells
    inside it are those of the rectangle spanned by start and end. *)
Theorem reachable_ranges_normalised t s g :
  reachable t s ->
  g ∈ ranges s ->
  bounds_consistent g /\
  minRow g <= maxRow g /\ minCol g <= maxCol g /\
  (forall r c,
     isInside g r c = true <->
     Z.min (row (start g)) (row (end_ g)) <= r <= Z.max (row (start g)) (row (end_ g)) /\
     Z.min (col (start g)) (col (end_ g)) <= c <= Z.max (col (start g)) (col (end_ g))).
Proof.
  intros [es ->] Hg.
  assert (Hall : allConsistent (run t new_Spreadsheet es))
    by (apply consistent_run, consistent_new_Range).
  unfold allConsistent in Hall. rewrite Forall_forall in Hall.
  specialize (Hall g Hg). split; [exact Hall|].
  destruct (consistent_ordered g Hall) as [Hr Hc].
  split; [exact Hr|]. split; [exact Hc|].
  intros r c. now apply isInside_rectangle.
Qed.

Lemma reachable_ranges_normalised_witness :
  let s := run sampleTable new_Spreadsheet
             [CellMouseDown plain (cellAt 4 colC); CellMouseMove (cellAt 1 colA)] in
  let g := setEnd 1 0 (setStart 4 2 (new_Range 0 0)) in
  bounds_consistent g /\
  minRow g <= maxRow g /\ minCol g <= maxCol g /\
  (forall r c, isInside g r c = true <-> 1 <= r <= 4 /\ 0 <= c <= 2).
Proof.
  apply (reachable_ranges_normalised sampleTable
           (run sampleTable new_Spreadsheet
              [CellMouseDown plain (cellAt 4 colC); CellMouseMove (cellAt 1 colA)])
           (setEnd 1 0 (setStart 4 2 (new_Range 0 0)))).
  - exists [CellMouseDown plain (cellAt 4 colC); CellMouseMove (cellAt 1 colA)].
    reflexivity.
  - vm_compute. apply list_elem_of_here.
Defined.

(** ** Which handlers can throw *)

Lemma nonempty_run t es : forall s, ranges s <> [] -> ranges (run t s es) <> [].
Proof.
  induction es as [|e es IH]; intros s Hs; simpl; [exact Hs|].
  apply IH. now apply keeps_dispatch.
Qed.

Lemma select_completes t event el init a m :
  fst (_select t event el {| ranges := init ++ [a]; selecting := m |}) = Some tt.
Proof.
  unfold _select.
  set (m' := match el with
             | ColumnComponent _ => Scolumn
             | CellComponent cell =>
                 if isRowHeaderField t (column cell) then Srow else Scell
             end).
  assert (Hset : forall (k : Handler unit) s,
            ((match el with
              | ColumnComponent _ => set_selecting Scolumn
              | CellComponent cell =>
                  if isRowHeaderField t (column cell)
                  then set_selecting Srow else set_selecting Scell
              end) ;; k) s = k {| ranges := ranges s; selecting := m' |}).
  { intros k s. subst m'. destruct el as [c|cell]; [reflexivity|].
    now destruct (isRowHeaderField t (column cell)). }
  rewrite Hset. cbn [ranges].
  destruct (shiftKey event); [|destruct (ctrlKey event)].
  - destruct (shift_tail_snoc t el init a m') as (a' & -> & _). reflexivity.
  - handler_simpl.
    rewrite (beginSelection_snoc t (init ++ [a]) (new_Range 0 0) m' el).
    destruct (endSelection_snoc_start t (init ++ [a])
                (match el with
                 | ColumnComponent c => setStart 0 (findColumnIndex t c - 1) (new_Range 0 0)
                 | CellComponent cell =>
                     if isRowHeaderField t (column cell)
                     then setStart (position cell - 1) 0 (new_Range 0 0)
                     else setStart (position cell - 1)
                            (findColumnIndex t (column cell) - 1) (new_Range 0 0)
                 end) m' el) as (a' & -> & _).
    reflexivity.
  - handler_simpl.
    pose proof (beginSelection_snoc t [] (new_Range 0 0) m' el) as Hb.
    cbn [app] in Hb. rewrite Hb.
    destruct (endSelection_snoc_start t []
                (match el with
                 | ColumnComponent c => setStart 0 (findColumnIndex t c - 1) (new_Range 0 0)
                 | CellComponent cell =>
                     if isRowHeaderField t (column cell)
                     then setStart (position cell - 1) 0 (new_Range 0 0)
                     else setStart (position cell - 1)
                            (findColumnIndex t (column cell) - 1) (new_Range 0 0)
                 end) m' el) as (a' & He & _).
    cbn [app] in He. now rewrite He.
Qed.

(** X15: from a reachable state no handler throws, the pointer-down on
    the corner header aside: every other pointer-down (plain, ctrl or
    shift), every pointer move, pointer-up and page change runs to its
    end. *)
Theorem handlers_complete t s e :
  reachable t s ->
  isCornerDown t e = false ->
  fst (dispatch t e s) = Some tt.
Proof.
  intros [es ->] He.
  assert (Hne : ranges (run t new_Spreadsheet es) <> [])
    by (now apply nonempty_run).
  destruct (state_cases (run t new_Spreadsheet es))
    as [[m Hs] | (init & a & m & Hs)]; rewrite Hs in *; [now simpl in Hne|].
  clear Hs Hne.
  destruct e as [event c | c | event cell | cell | |]; simpl in *.
  - unfold handleColumnMouseDown. rewrite He. apply select_completes.
  - destruct (move_snoc t init a m (ColumnMouseMove c) eq_refl) as (a' & Hd & _).
    simpl in Hd. now rewrite Hd.
  - apply select_completes.
  - destruct (move_snoc t init a m (CellMouseMove cell) eq_refl) as (a' & Hd & _).
    simpl in Hd. now rewrite Hd.
  - reflexivity.
  - reflexivity.
Qed.

Lemma handlers_complete_witness :
  fst (dispatch sampleTable (CellMouseDown shift (cellAt 3 rowHeader))
         (run sampleTable new_Spreadsheet
            [ColumnMouseDown plain colB; MouseUp; CellMouseDown ctrl (cellAt 1 colA)]))
  = Some tt.
Proof.
  apply (handlers_complete sampleTable
           (run sampleTable new_Spreadsheet
              [ColumnMouseDown plain colB; MouseUp; CellMouseDown ctrl (cellAt 1 colA)])
           (CellMouseDown shift (cellAt 3 rowHeader))).
  - exists [ColumnMouseDown plain colB; MouseUp; CellMouseDown ctrl (cellAt 1 colA)].
    reflexivity.
  - reflexivity.
Defined.





(** ** getSelectedData: errors and clipping *)

Lemma at_index_is_Some {A} (l : list A) i :
  is_Some (at_index l i) <-> 0 <= i < Z.of_nat (length l).
Proof.
  unfold at_index. destruct (i <? 0) eqn:Hi.
  - apply Z.ltb_lt in Hi. split; [intros [x Hx]; discriminate | lia].
  - apply Z.ltb_ge in Hi. rewrite lookup_lt_is_Some. lia.
Qed.

(** X17: [getSelectedData] throws exactly when one of the rows from
    minRow to maxRow is not a row of [table.getRows()]; a range reaching
    past the columns never makes it throw, and an empty row span gives
    an empty result. *)
Theorem getSelectedData_throws_outside_rows t s g :
  is_Some (getSelectedData t s (Some g)) <->
  maxRow g < minRow g \/
  (0 <= minRow g /\ maxRow g < Z.of_nat (length (rows t))).
Proof.
  unfold getSelectedData. cbn [mbind option_bind].
  set (cols := slice (columns t) (minCol g + 1) (Some (maxCol g + 2))).
  set (f := fun r => row ← at_index (rows t) r; Some (pickFields cols row)).
  assert (Hf : forall r, is_Some (f r) <-> 0 <= r < Z.of_nat (length (rows t))).
  { intros r. rewrite <- at_index_is_Some. subst f. cbn beta.
    destruct (at_index (rows t) r); cbn; split; intros [x Hx]; eauto; discriminate. }
  assert (Hm : is_Some (mapM f (seqZ (minRow g) (maxRow g - minRow g + 1))) <->
               maxRow g < minRow g \/
               (0 <= minRow g /\ maxRow g < Z.of_nat (length (rows t)))).
  { rewrite mapM_is_Some, Forall_forall. split.
    - intros Hall.
      destruct (Z.lt_ge_cases (maxRow g) (minRow g)) as [Hlt|Hge]; [now left|right].
      assert (H1 : minRow g ∈ seqZ (minRow g) (maxRow g - minRow g + 1)).
      { apply list_elem_of_lookup. exists 0%nat. apply lookup_seqZ. lia. }
      assert (H2 : maxRow g ∈ seqZ (minRow g) (maxRow g - minRow g + 1)).
      { apply list_elem_of_lookup. exists (Z.to_nat (maxRow g - minRow g)).
        apply lookup_seqZ. lia. }
      apply Hall, Hf in H1. apply Hall, Hf in H2. lia.
    - intros Hcase r Hr. apply list_elem_of_lookup in Hr as [i Hi].
      apply lookup_seqZ in Hi as [-> Hi]. apply Hf. lia. }
  rewrite <- Hm.
  destruct (mapM f (seqZ (minRow g) (maxRow g - minRow g + 1))); cbn;
    split; intros [x Hx]; eauto; discriminate.
Qed.

(** X18: a range that reaches past the last data column is clipped to
    it: when [getSelectedData] returns, columnCount counts the data
    columns from minCol to min(maxCol, last data column) and is 0 when
    minCol lies beyond them, and rowCount is the number of records. *)
Theorem getSelectedData_clips_columns t s g res :
  getSelectedData t s (Some g) = Some res ->
  0 <= minCol g <= maxCol g ->
  let lastCol := Z.of_nat (length (columns t)) - 2 in
  columnCount res = Z.max 0 (Z.min (maxCol g) lastCol - minCol g + 1) /\
  rowCount res = Z.of_nat (length (data res)).
Proof.
  intros Hres Hcol lastCol.
  unfold getSelectedData in Hres. cbn [mbind option_bind] in Hres.
  destruct (mapM _ _) as [rws|] in Hres; [|discriminate].
  cbn in Hres. injection Hres as <-. cbn [columnCount rowCount data].
  split; [|reflexivity].
  unfold slice.
  replace (minCol g + 1 <? 0) with false by (symmetry; apply Z.ltb_ge; lia).
  replace (maxCol g + 2 <? 0) with false by (symmetry; apply Z.ltb_ge; lia).
  rewrite length_take, length_drop. subst lastCol. lia.
Qed.

(** Rows 1..2 of [sampleTable], columns b.. up to column index 7, of
    which only b and c exist. *)
Lemma getSelectedData_clips_columns_witness :
  exists res,
    getSelectedData sampleTable new_Spreadsheet
      (Some (setEnd 2 7 (setStart 1 1 (new_Range 0 0)))) = Some res /\
    columnCount res = 2 /\
    rowCount res = Z.of_nat (length (data res)).
Proof.
  destruct (getSelectedData sampleTable new_Spreadsheet
              (Some (setEnd 2 7 (setStart 1 1 (new_Range 0 0))))) as [res|] eqn:E;
    [|vm_compute in E; discriminate].
  exists res. split; [reflexivity|].
  apply (getSelectedData_clips_columns sampleTable new_Spreadsheet
           (setEnd 2 7 (setStart 1 1 (new_Range 0 0))) res E).
  simpl. lia.
Defined.

(** ** The records of getSelectedData *)

Lemma size_list_to_set_le (l : list string) :
  (size (list_to_set l : gset string) <= length l)%nat.
Proof.
  induction l as [|x l IH]; [now rewrite list_to_set_nil, size_empty|].
  rewrite list_to_set_cons, size_union_alt, size_singleton. simpl.
  assert (Hsub : (size (list_to_set l ∖ {[x]} : gset string)
                  <= size (list_to_set l : gset string))%nat).
  { apply subseteq_size, subseteq_difference_l. reflexivity. }
  lia.
Qed.

Lemma pickFields_dom_set columns row :
  dom (pickFields columns row) = list_to_set (field <$> columns).
Proof.
  apply set_eq. intros f. rewrite pickFields_dom, elem_of_list_to_set. reflexivity.
Qed.

(** X19: a record built for a row holds nothing but that row's values
    under the selected fields: each value is the row's, a field the row
    lacks is kept as a key holding [undefined], and when the row has all
    the selected fields the record is a sub-map of the row.  Columns
    that share a field share a key, so a record has at most as many keys
    as there are selected columns, and exactly as many when their fields
    are distinct. *)
Theorem record_restricts_row columns row :
  (forall f v, pickFields columns row !! f = Some v ->
     f ∈ field <$> columns /\
     (row !! f = Some v \/ (row !! f = None /\ v = VUndefined))) /\
  (forall f, f ∈ field <$> columns -> row !! f = None ->
     pickFields columns row !! f = Some VUndefined) /\
  ((forall f, f ∈ field <$> columns -> is_Some (row !! f)) ->
     pickFields columns row ⊆ row) /\
  (size (pickFields columns row) <= length columns)%nat /\
  (NoDup (field <$> columns) -> size (pickFields columns row) = length columns).
Proof.
  assert (Hlook : forall f v, pickFields columns row !! f = Some v ->
            f ∈ field <$> columns /\
            (row !! f = Some v \/ (row !! f = None /\ v = VUndefined))).
  { intros f v. rewrite pickFields_lookup.
    destruct (decide (f ∈ field <$> columns)) as [Hin|Hin]; [|discriminate].
    intros Hv. injection Hv as <-. split; [exact Hin|].
    unfold property. destruct (row !! f); simpl; eauto. }
  split; [exact Hlook|]. split; [|split; [|split]].
  - intros f Hin Hnone. rewrite pickFields_lookup, decide_True by exact Hin.
    unfold property. now rewrite Hnone.
  - intros Hall. apply map_subseteq_spec. intros f v Hv.
    destruct (Hlook f v Hv) as [Hin [Hr | [Hr _]]]; [exact Hr|].
    destruct (Hall f Hin) as [x Hx]. congruence.
  - rewrite <- size_dom, pickFields_dom_set.
    etransitivity; [apply size_list_to_set_le|]. now rewrite length_fmap.
  - intros Hnd. rewrite <- size_dom, pickFields_dom_set.
    rewrite size_list_to_set by exact Hnd. apply length_fmap.
Qed.

(** Columns a and b on a row that has no b. *)
Lemma record_restricts_row_witness :
  pickFields [colA; colB] (<["a" := VNumber 7]> ∅) !! "b" = Some VUndefined /\
  size (pickFields [colA; colB] (<["a" := VNumber 7]> ∅)) = 2%nat.
Proof.
  destruct (record_restricts_row [colA; colB] (<["a" := VNumber 7]> ∅))
    as (_ & Hmissing & _ & _ & Hsize).
  split.
  - apply Hmissing; [|reflexivity].
    apply list_elem_of_further, list_elem_of_here.
  - apply Hsize. apply (bool_decide_unpack _). vm_compute. reflexivity.
Defined.

(** ** layoutCell *)

(** X20: a cell that [layoutCell] marks as solely selected is also
    marked selected, and then the list holds one range whose four bounds
    all coincide with that cell. *)
Theorem only_selected_is_selected s r c :
  onlyCellSelected s r c = true ->
  cellSelected s r c = true /\
  exists g, ranges s = [g] /\
            minRow g = r /\ maxRow g = r /\ minCol g = c /\ maxCol g = c.
Proof.
  unfold onlyCellSelected, cellSelected. intros H.
  apply andb_true_iff in H as [Hlen H]. apply Z.eqb_eq in Hlen.
  destruct (ranges s) as [|g [|g' l]]; cbn [length] in Hlen; try lia.
  cbn [lookup list_lookup] in H. cbn [existsb].
  unfold atTopLeft, atBottomRight in H. unfold isInside.
  rewrite !andb_true_iff, !Z.eqb_eq in H. destruct H as [[Hr1 Hc1] [Hr2 Hc2]].
  split.
  - rewrite orb_false_r, !andb_true_iff, !Z.leb_le. lia.
  - exists g. repeat split; congruence.
Qed.

Lemma only_selected_is_selected_witness :
  cellSelected (step sampleTable new_Spreadsheet (CellMouseDown plain (cellAt 2 colB))) 2 1
  = true.
Proof.
  apply (only_selected_is_selected
           (step sampleTable new_Spreadsheet (CellMouseDown plain (cellAt 2 colB))) 2 1).
  reflexivity.
Defined.

(** X21: with pagination, the numbers [layoutCell] writes into the
    row-header cells continue from page to page and never repeat: two
    row-header cells at positions 1..pageSize carry the same number only
    if they are on the same page at the same position, and the first row
    of a page is numbered one more than the last row of the page
    before. *)
Theorem row_header_numbers_run_on t s size :
  getPageSize t = Some size ->
  (forall page page' cell cell' L L',
     isRowHeaderField t (column cell) = true ->
     isRowHeaderField t (column cell') = true ->
     1 <= position cell <= size ->
     1 <= position cell' <= size ->
     layoutCell t (Some page) s cell = Some L ->
     layoutCell t (Some page') s cell' = Some L' ->
     innerHTML L = innerHTML L' ->
     page = page' /\ position cell = position cell') /\
  (forall page hdr,
     isRowHeaderField t hdr = true ->
     exists n,
       innerHTML <$> layoutCell t (Some page) s {| position := size; column := hdr |}
         = Some (Some n) /\
       innerHTML <$> layoutCell t (Some (page + 1)) s {| position := 1; column := hdr |}
         = Some (Some (n + 1))).
Proof.
  intros Hsize. split.
  - intros page page' cell cell' L L' Hh Hh' Hp Hp' HL HL' Heq.
    unfold layoutCell in HL, HL'. rewrite Hh, Hsize in HL. rewrite Hh', Hsize in HL'.
    cbn in HL, HL'. injection HL as <-. injection HL' as <-.
    cbn [innerHTML] in Heq. injection Heq as Heq.
    assert (Hpage : page = page') by nia.
    subst page'. split; [reflexivity | lia].
  - intros page hdr Hh. unfold layoutCell. cbn [column position].
    rewrite Hh, Hsize. cbn. eexists. split; [reflexivity|].
    do 2 f_equal. lia.
Qed.

Lemma row_header_numbers_run_on_witness :
  let t := {| columns := [rowHeader; colA]; rows := map sampleRow [0; 1; 2; 3; 4];
              displayedRows := 2; getPageSize := Some 2;
              rowHeaderField := "--row-position"; cellRows := [1; 2] |} in
  exists n,
    innerHTML <$> layoutCell t (Some 2) new_Spreadsheet {| position := 2; column := rowHeader |}
      = Some (Some n) /\
    innerHTML <$> layoutCell t (Some (2 + 1)) new_Spreadsheet {| position := 1; column := rowHeader |}
      = Some (Some (n + 1)).
Proof.
  intros t.
  destruct (row_header_numbers_run_on t new_Spreadsheet 2 eq_refl) as [_ H].
  apply (H 2 rowHeader). reflexivity.
Defined.

(** ** getCell and the active cell *)

Lemma getCell_of_cell t cell i :
  NoDup (cid <$> columns t) ->
  columns t !! i = Some (column cell) ->
  1 <= position cell <= Z.of_nat (displayedRows t) ->
  getCell t (position cell - 1) (findColumnIndex t (column cell) - 1) = Some (Some cell).
Proof.
  intros Hnd Hi Hp. unfold getCell, getRowFromPosition_getCells.
  replace (position cell - 1 + 1) with (position cell) by lia.
  replace ((1 <=? position cell) && (position cell <=? Z.of_nat (displayedRows t)))
    with true by (symmetry; apply andb_true_iff; split; apply Z.leb_le; lia).
  cbn [mbind option_bind]. f_equal.
  rewrite (findColumnIndex_lookup t i (column cell) Hnd Hi).
  replace (Z.of_nat i - 1 + 1) with (Z.of_nat i) by lia.
  unfold at_index.
  replace (Z.of_nat i <? 0) with false by (symmetry; apply Z.ltb_ge; lia).
  rewrite Nat2Z.id, list_lookup_fmap, Hi. now destruct cell.
Qed.

(** X22: coordinates round-trip through the grid: for a displayed cell
    of a table with distinct columns, [getCell] at the row and column
    the module computes for it returns that very cell, and after a plain
    or ctrl pointer-down on an ordinary cell [getActiveCell] is the cell
    that was pressed. *)
Theorem active_cell_is_pressed_cell t s event cell i :
  NoDup (cid <$> columns t) ->
  columns t !! i = Some (column cell) ->
  1 <= position cell <= Z.of_nat (displayedRows t) ->
  getCell t (position cell - 1) (findColumnIndex t (column cell) - 1) = Some (Some cell) /\
  (shiftKey event = false ->
   isRowHeaderField t (column cell) = false ->
   getActiveCell t (step t s (CellMouseDown event cell)) = Some (Some cell)).
Proof.
  intros Hnd Hi Hp.
  pose proof (getCell_of_cell t cell i Hnd Hi Hp) as Hget.
  split; [exact Hget|]. intros Hshift Hc.
  destruct event as [sh ct]. simpl in Hshift. subst sh.
  unfold step, exec, getActiveCell. destruct ct.
  - change {| shiftKey := false; ctrlKey := true |} with ctrl.
    rewrite (ctrl_click_cell t s cell Hc). cbn [snd].
    rewrite getActiveRange_snoc. cbn [mbind option_bind]. exact Hget.
  - change {| shiftKey := false; ctrlKey := false |} with plain.
    rewrite (plain_click_cell t s cell Hc). cbn [snd].
    pose proof (getActiveRange_snoc []
                  (singleCell (position cell - 1) (findColumnIndex t (column cell) - 1))
                  Scell) as Ha.
    cbn [app] in Ha. rewrite Ha. cbn [mbind option_bind]. exact Hget.
Qed.

Lemma active_cell_is_pressed_cell_witness :
  getActiveCell sampleTable
    (step sampleTable new_Spreadsheet (CellMouseDown ctrl (cellAt 3 colB)))
  = Some (Some (cellAt 3 colB)).
Proof.
  destruct (active_cell_is_pressed_cell sampleTable new_Spreadsheet ctrl (cellAt 3 colB) 2)
    as [_ H].
  - apply (bool_decide_unpack _). vm_compute. reflexivity.
  - reflexivity.
  - simpl. lia.
  - apply H; reflexivity.
Defined.

(** ** layoutSelection *)

Lemma getCell_Some t r c :
  (exists cell, getCell t r c = Some (Some cell)) <-> displayedCell t r c.
Proof.
  unfold getCell, getRowFromPosition_getCells, displayedCell.
  destruct ((1 <=? r + 1) && (r + 1 <=? Z.of_nat (displayedRows t))) eqn:Hrow.
  - apply andb_true_iff in Hrow as [H1 H2]. apply Z.leb_le in H1, H2.
    cbn [mbind option_bind].
    pose proof (at_index_is_Some
                  (map (fun c0 => {| position := r + 1; column := c0 |}) (columns t))
                  (c + 1)) as Hat.
    rewrite length_map in Hat. split.
    + intros [cell Hcell]. injection Hcell as Hcell.
      assert (His : is_Some (at_index
                (map (fun c0 => {| position := r + 1; column := c0 |}) (columns t)) (c + 1)))
        by (rewrite Hcell; eauto).
      apply Hat in His. lia.
    + intros [Hr Hc].
      destruct (proj2 Hat ltac:(lia)) as [cell Hcell].
      exists cell. now rewrite Hcell.
  - cbn [mbind option_bind]. split; [intros [cell Hcell]; discriminate|].
    intros [Hr _]. apply andb_false_iff in Hrow as [H|H]; apply Z.leb_gt in H; lia.
Qed.

Lemma getCell_position t r c cell :
  getCell t r c = Some (Some cell) -> position cell = r + 1.
Proof.
  unfold getCell, getRowFromPosition_getCells.
  destruct ((1 <=? r + 1) && (r + 1 <=? Z.of_nat (displayedRows t))); [|discriminate].
  cbn [mbind option_bind]. intros H. injection H as H.
  unfold at_index in H. destruct (c + 1 <? 0); [discriminate|].
  rewrite list_lookup_fmap in H.
  destruct (columns t !! Z.to_nat (c + 1)); [|discriminate].
  cbn in H. injection H as <-. reflexivity.
Qed.

Lemma rangeBox_Some t geo active g :
  is_Some (rangeBox t geo active g) <->
  displayedCell t (minRow g) (minCol g) /\ displayedCell t (maxRow g) (maxCol g).
Proof.
  rewrite <- !getCell_Some. unfold rangeBox.
  destruct (getCell t (minRow g) (minCol g)) as [[tl|]|];
    destruct (getCell t (maxRow g) (maxCol g)) as [[br|]|];
    cbn [mbind option_bind]; split;
    try (intros [b Hb]; discriminate);
    try (intros [[x Hx] [y Hy]]; discriminate);
    eauto.
Qed.

Lemma layoutSelection_inv t geo s ov :
  layoutSelection t geo s = Some ov ->
  exists activeCell boxes,
    getActiveCell t s = Some (Some activeCell) /\
    rangeBoxes t geo s = Some boxes /\
    ov = {| overlay_left := scrollLeft geo;
            overlay_top := scrollTop geo;
            overlay_width := clientWidth geo;
            overlay_height := clientHeight geo;
            overlay_children := activeCellBox geo activeCell :: boxes |}.
Proof.
  unfold layoutSelection. intros H.
  destruct (getActiveCell t s) as [[activeCell|]|]; cbn [mbind option_bind] in H;
    try discriminate.
  destruct (rangeBoxes t geo s) as [boxes|]; cbn [mbind option_bind] in H;
    [|discriminate].
  injection H as <-. now exists activeCell, boxes.
Qed.

Lemma rangeBoxes_lookup t geo s boxes i b :
  rangeBoxes t geo s = Some boxes ->
  boxes !! i = Some b ->
  exists g,
    ranges s !! i = Some g /\
    rangeBox t geo (bool_decide (i = (length (ranges s) - 1)%nat)) g = Some b.
Proof.
  unfold rangeBoxes. intros Hm Hb. apply mapM_Some_1 in Hm.
  destruct (Forall2_lookup_r _ _ _ _ _ Hm Hb) as ([j g] & Hj & Hf).
  rewrite list_lookup_imap in Hj.
  destruct (ranges s !! i) as [g'|] eqn:Hg; [|discriminate].
  cbn in Hj. injection Hj as <- <-. now exists g'.
Qed.

Lemma rangeBox_inv t geo active g b :
  rangeBox t geo active g = Some b ->
  exists topLeftCell bottomRightCell,
    getCell t (minRow g) (minCol g) = Some (Some topLeftCell) /\
    getCell t (maxRow g) (maxCol g) = Some (Some bottomRightCell) /\
    box_active_cell b = false /\ box_range b = true /\ box_range_active b = active /\
    box_left b = offsetLeft geo topLeftCell /\
    box_top b = offsetTop geo (position topLeftCell) /\
    box_width b = offsetLeft geo bottomRightCell + offsetWidth geo bottomRightCell
                  - offsetLeft geo topLeftCell /\
    box_height b = offsetTop geo (position bottomRightCell)
                   + offsetHeight geo (position bottomRightCell)
                   - offsetTop geo (position topLeftCell).
Proof.
  unfold rangeBox. intros H.
  destruct (getCell t (minRow g) (minCol g)) as [[tl|]|];
    destruct (getCell t (maxRow g) (maxCol g)) as [[br|]|];
    cbn [mbind option_bind] in H; try discriminate.
  injection H as <-. exists tl, br. repeat split.
Qed.

(** X23: when [layoutSelection] runs to its end, the overlay takes the
    scroll box of the table, and holds the active-cell box followed by
    one box per range in list order, of which the last and only the last
    is marked active.  The active-cell box is the box of the cell at the
    active range's start anchor and has exactly that cell's width and
    height; a range that is one cell gets that cell's width and height
    too. *)
Theorem layoutSelection_overlay t geo s ov :
  layoutSelection t geo s = Some ov ->
  overlay_left ov = scrollLeft geo /\ overlay_top ov = scrollTop geo /\
  overlay_width ov = clientWidth geo /\ overlay_height ov = clientHeight geo /\
  exists a activeCell activeEl boxes,
    getActiveRange s = Some a /\
    getCell t (row (start a)) (col (start a)) = Some (Some activeCell) /\
    overlay_children ov = activeEl :: boxes /\
    box_active_cell activeEl = true /\ box_range activeEl = false /\
    box_left activeEl = offsetLeft geo activeCell /\
    box_top activeEl = offsetTop geo (row (start a) + 1) /\
    box_width activeEl = offsetWidth geo activeCell /\
    box_height activeEl = offsetHeight geo (row (start a) + 1) /\
    length boxes = length (ranges s) /\
    (forall i b, boxes !! i = Some b ->
       box_range b = true /\ box_active_cell b = false /\
       (box_range_active b = true <-> i = (length (ranges s) - 1)%nat) /\
       (forall g, ranges s !! i = Some g ->
          minRow g = maxRow g -> minCol g = maxCol g ->
          exists cell,
            getCell t (minRow g) (minCol g) = Some (Some cell) /\
            box_left b = offsetLeft geo cell /\
            box_top b = offsetTop geo (minRow g + 1) /\
            box_width b = offsetWidth geo cell /\
            box_height b = offsetHeight geo (minRow g + 1))).
Proof.
  intros H. destruct (layoutSelection_inv _ _ _ _ H) as (activeCell & boxes & Ha & Hb & ->).
  cbn [overlay_left overlay_top overlay_width overlay_height overlay_children].
  do 4 (split; [reflexivity|]).
  unfold getActiveCell in Ha.
  destruct (getActiveRange s) as [a|] eqn:Hact; [|discriminate].
  cbn [mbind option_bind] in Ha.
  pose proof (getCell_position _ _ _ _ Ha) as Hpos.
  exists a, activeCell, (activeCellBox geo activeCell), boxes.
  split; [reflexivity|]. split; [exact Ha|]. split; [reflexivity|].
  unfold activeCellBox.
  cbn [box_active_cell box_range box_left box_top box_width box_height].
  rewrite Hpos.
  split; [reflexivity|]. split; [reflexivity|]. split; [reflexivity|].
  split; [reflexivity|]. split; [lia|]. split; [lia|]. split.
  - unfold rangeBoxes in Hb. apply mapM_Some_1, Forall2_length in Hb.
    now rewrite length_imap in Hb.
  - intros i b Hi.
    destruct (rangeBoxes_lookup _ _ _ _ _ _ Hb Hi) as (g & Hg & Hbox).
    destruct (rangeBox_inv _ _ _ _ _ Hbox)
      as (tl & br & Htl & Hbr & H1 & H2 & H3 & H4 & H5 & H6 & H7).
    split; [exact H2|]. split; [exact H1|]. split.
    + rewrite H3. apply bool_decide_eq_true.
    + intros g' Hg' Hrow Hcol. rewrite Hg in Hg'. injection Hg' as <-.
      rewrite <- Hrow, <- Hcol in Hbr. rewrite Htl in Hbr. injection Hbr as <-.
      exists tl. split; [exact Htl|].
      rewrite H4, H5, H6, H7, (getCell_position _ _ _ _ Htl).
      repeat split; lia.
Qed.

(** After a click on cell (2, b) of [sampleTable], with every cell 80
    wide and 20 high. *)
Lemma layoutSelection_overlay_witness :
  let geo := {| offsetLeft := fun cell => 80 * findColumnIndex sampleTable (column cell);
                offsetWidth := fun _ => 80;
                offsetTop := fun p => 20 * (p - 1);
                offsetHeight := fun _ => 20;
                scrollLeft := 0; scrollTop := 40;
                clientWidth := 320; clientHeight := 100 |} in
  let s := step sampleTable new_Spreadsheet (CellMouseDown plain (cellAt 2 colB)) in
  exists ov,
    layoutSelection sampleTable geo s = Some ov /\
    overlay_top ov = 40 /\
    length (overlay_children ov) = 2%nat.
Proof.
  intros geo s.
  destruct (layoutSelection sampleTable geo s) as [ov|] eqn:E;
    [|vm_compute in E; discriminate].
  exists ov. split; [reflexivity|].
  destruct (layoutSelection_overlay sampleTable geo s ov E)
    as (_ & Htop & _ & _ & a & cell & el & boxes & _ & _ & Hch & _ & _ & _ & _ & _ & _ & Hlen & _).
  split; [exact Htop|]. rewrite Hch. simpl. now rewrite Hlen.
Defined.

Lemma rangeBoxes_is_Some t geo s :
  is_Some (rangeBoxes t geo s) <->
  Forall (fun g => displayedCell t (minRow g) (minCol g) /\
                   displayedCell t (maxRow g) (maxCol g)) (ranges s).
Proof.
  unfold rangeBoxes. rewrite mapM_is_Some, !Forall_lookup. split.
  - intros H i g Hg. apply (rangeBox_Some t geo (bool_decide (i = (length (ranges s) - 1)%nat))).
    apply (H i (i, g)). rewrite list_lookup_imap, Hg. reflexivity.
  - intros H i [j g] Hj. rewrite list_lookup_imap in Hj.
    destruct (ranges s !! i) as [g'|] eqn:Hg; [|discriminate].
    cbn in Hj. injection Hj as <- <-. cbn. apply rangeBox_Some. now apply (H i).
Qed.

(** X24: [layoutSelection] runs to its end exactly when the start anchor
    of the active range and the two corners of every range are cells the
    grid displays on the current page; a range that leaves the displayed
    rows or the table's columns makes it throw. *)
Theorem layoutSelection_needs_displayed_cells t geo s :
  is_Some (layoutSelection t geo s) <->
  (exists a, getActiveRange s = Some a /\
             displayedCell t (row (start a)) (col (start a))) /\
  Forall (fun g => displayedCell t (minRow g) (minCol g) /\
                   displayedCell t (maxRow g) (maxCol g)) (ranges s).
Proof.
  rewrite <- (rangeBoxes_is_Some t geo s). unfold layoutSelection, getActiveCell. split.
  - intros [ov H].
    destruct (getActiveRange s) as [a|]; [|discriminate].
    cbn [mbind option_bind] in H.
    destruct (getCell t (row (start a)) (col (start a))) as [[cell|]|] eqn:Hcell;
      cbn [mbind option_bind] in H; try discriminate.
    destruct (rangeBoxes t geo s) as [boxes|]; [|discriminate].
    split; [|now exists boxes]. exists a. split; [reflexivity|].
    apply getCell_Some. now exists cell.
  - intros [(a & -> & Hd) [boxes ->]]. cbn [mbind option_bind].
    apply getCell_Some in Hd as [cell ->]. cbn [mbind option_bind]. eexists. reflexivity.
Qed.

(** A paginated grid showing the last, short page: page size 10, three
    rows displayed.  A click on a column header sets the end row to 9,
    which is not displayed, and the layout that follows throws. *)
Lemma layoutSelection_needs_displayed_cells_witness :
  let t := {| columns := [rowHeader; colA; colB];
              rows := map sampleRow [0; 1; 2];
              displayedRows := 3; getPageSize := Some 10;
              rowHeaderField := "--row-position"; cellRows := [1; 2; 3] |} in
  let s := step t new_Spreadsheet (ColumnMouseDown plain colA) in
  (end_ <$> getActiveRange s) = Some {| row := 9; col := 0 |} /\
  forall geo, layoutSelection t geo s = None.
Proof.
  intros t s. split; [reflexivity|]. intros geo.
  destruct (layoutSelection t geo s) as [ov|] eqn:E; [|reflexivity].
  assert (H : is_Some (layoutSelection t geo s)) by (rewrite E; eauto).
  apply layoutSelection_needs_displayed_cells in H as [_ H].
  apply Forall_inv in H as [_ [[_ Hlt] _]]. vm_compute in Hlt. discriminate.
Defined.

(** ** beginSelection *)

(** X25: [beginSelection] rewrites the start anchor of the active range
    and nothing else: the end anchor, the other ranges and the mode stay,
    the new start row is 0 for a column header and the cell's row
    otherwise, and a row-header cell starts at column 0.  With no range
    to act on it throws and leaves the state as it was. *)
Theorem beginSelection_moves_start_only t s element :
  (forall a, getActiveRange s = Some a ->
     exists init a',
       ranges s = init ++ [a] /\
       beginSelection t element s =
         (Some tt, {| ranges := init ++ [a']; selecting := selecting s |}) /\
       end_ a' = end_ a /\
       start a' =
         match element with
         | ColumnComponent c => {| row := 0; col := findColumnIndex t c - 1 |}
         | CellComponent cell =>
             {| row := position cell - 1;
                col := if isRowHeaderField t (column cell) then 0
                       else findColumnIndex t (column cell) - 1 |}
         end) /\
  (ranges s = [] -> beginSelection t element s = (None, s)).
Proof.
  split.
  - intros a Ha. destruct s as [rs m].
    destruct (getActiveRange_Some _ _ Ha) as [init Hr]. simpl in Hr. subst rs.
    exists init. eexists. split; [reflexivity|].
    rewrite beginSelection_snoc. split; [reflexivity|].
    destruct element as [c|cell]; [now split|].
    destruct (isRowHeaderField t (column cell)); now split.
  - intros Hnil. destruct s as [rs m]. simpl in Hnil. subst rs.
    unfold beginSelection. destruct element as [c|cell]; [reflexivity|].
    now destruct (isRowHeaderField t (column cell)).
Qed.

Lemma beginSelection_moves_start_only_witness :
  exists init a',
    ranges (step sampleTable new_Spreadsheet (CellMouseDown plain (cellAt 1 colA)))
      = init ++ [singleCell 1 0] /\
    beginSelection sampleTable (CellComponent (cellAt 4 rowHeader))
      (step sampleTable new_Spreadsheet (CellMouseDown plain (cellAt 1 colA)))
      = (Some tt, {| ranges := init ++ [a']; selecting := Scell |}) /\
    end_ a' = {| row := 1; col := 0 |} /\
    start a' = {| row := 4; col := 0 |}.
Proof.
  destruct (beginSelection_moves_start_only sampleTable
              (step sampleTable new_Spreadsheet (CellMouseDown plain (cellAt 1 colA)))
              (CellComponent (cellAt 4 rowHeader))) as [H _].
  apply (H (singleCell 1 0)). reflexivity.
Defined.

(** ** initializeTable *)

(** X26: when [initialize] attaches, header sorting is switched off on
    every column, the row-header column is put first (frozen, not
    editable, keyed by the row-header field), and the table's own
    columns follow in their order with title, field, resizable, frozen,
    editable and cssClass as they were; the table element gains the
    class tabulator-spreadsheet and one overlay. *)
Theorem initialize_prepends_row_header rowHeaderField h :
  modules_selectRow h = false ->
  let cols := options_columns (initialize rowHeaderField h) in
  Forall (fun c => def_headerSort c = false) cols /\
  def_field <$> cols = rowHeaderField :: (def_field <$> options_columns h) /\
  (exists hdr, cols !! 0%nat = Some hdr /\
               def_frozen hdr = true /\ def_editable hdr = false) /\
  (forall i c, options_columns h !! i = Some c ->
     exists c', cols !! S i = Some c' /\
       def_title c' = def_title c /\ def_field c' = def_field c /\
       def_resizable c' = def_resizable c /\ def_frozen c' = def_frozen c /\
       def_editable c' = def_editable c /\ def_cssClass c' = def_cssClass c) /\
  "tabulator-spreadsheet" ∈ element_classList (initialize rowHeaderField h) /\
  overlays (initialize rowHeaderField h) = S (overlays h).
Proof.
  intros Hm cols. subst cols. unfold initialize. rewrite Hm.
  cbn [initializeTable subscribe options_columns element_classList overlays
       modules_selectRow subscriptions documentListeners console_error].
  split; [|split; [|split; [|split; [|split]]]].
  - constructor; [reflexivity|]. apply Forall_forall. intros c Hc.
    apply list_elem_of_fmap in Hc as (c0 & -> & _). reflexivity.
  - rewrite fmap_cons. cbn [rowHeaderDefinition def_field]. f_equal.
    rewrite <- list_fmap_compose. apply list_fmap_ext. now intros i [].
  - eexists. split; [reflexivity|]. now split.
  - intros i c Hc. exists (disableHeaderSort c). split.
    + cbn [lookup list_lookup]. change (map disableHeaderSort (options_columns h) !! i
                                         = Some (disableHeaderSort c)).
      now rewrite list_lookup_fmap, Hc.
    + repeat split.
  - apply elem_of_app. right. apply list_elem_of_here.
  - reflexivity.
Qed.

Lemma initialize_prepends_row_header_witness :
  def_field <$> options_columns (initialize "--row-position" (sampleHost false))
    = ["--row-position"; "a"; "b"] /\
  Forall (fun c => def_headerSort c = false)
    (options_columns (initialize "--row-position" (sampleHost false))).
Proof.
  destruct (initialize_prepends_row_header "--row-position" (sampleHost false) eq_refl)
    as (Hsort & Hfields & _).
  split; [exact Hfields | exact Hsort].
Defined.

(** ** Further instances *)

Lemma Range_single_cell_witness :
  start (runCalls (new_Range 0 0) [CallSetEnd 3 2; CallSetStart 3 2])
    = {| row := 3; col := 2 |} /\
  end_ (runCalls (new_Range 0 0) [CallSetEnd 3 2; CallSetStart 3 2])
    = {| row := 3; col := 2 |}.
Proof.
  apply (Range_single_cell 0 0 [CallSetEnd 3 2; CallSetStart 3 2] 3 2).
  reflexivity.
Defined.

(** Rows 4..6 of the six-row [sampleTable]: row 6 does not exist. *)
Lemma getSelectedData_throws_outside_rows_witness :
  getSelectedData sampleTable new_Spreadsheet
    (Some (setEnd 6 1 (setStart 4 0 (new_Range 0 0)))) = None.
Proof.
  destruct (getSelectedData sampleTable new_Spreadsheet
              (Some (setEnd 6 1 (setStart 4 0 (new_Range 0 0))))) as [res|] eqn:E;
    [|reflexivity].
  assert (H : is_Some (getSelectedData sampleTable new_Spreadsheet
                         (Some (setEnd 6 1 (setStart 4 0 (new_Range 0 0))))))
    by (rewrite E; eexists; reflexivity).
  apply getSelectedData_throws_outside_rows in H. simpl in H. lia.
Defined.
